(** * playwright-request-mocker: the recorder (src/recorder.ts)

    A shallow embedding of [readHarFile] and [recordHar] together with the
    JavaScript built-ins they call, and the properties of the capture and
    normalization pipeline proved (or refuted) on it. *)

From Stdlib Require Import NArith String Ascii Lia.
From stdpp Require Import base option list gmap.

Set Warnings "-register-all".

(** * JavaScript strings

    A JavaScript string is a sequence of UTF-16 code units; a code unit is
    modelled as an [N].  [js] turns a literal of the source into its code
    units (every literal of recorder.ts is ASCII). *)

Abbreviation jsstring := (list N).

Definition js (s : string) : jsstring :=
  N_of_ascii <$> list_ascii_of_string s.

Arguments js : simpl never.

Module JsString.

(** [s.startsWith(p)]. *)
Fixpoint startsWith (s p : jsstring) {struct p} : bool :=
  match p, s with
  | [], _ => true
  | _ :: _, [] => false
  | a :: p', b :: s' => (a =? b)%N && startsWith s' p'
  end.

(** [s.includes(search)]: [search] occurs somewhere in [s]. *)
Fixpoint includes (s search : jsstring) : bool :=
  startsWith s search ||
  match s with
  | [] => false
  | _ :: t => includes t search
  end.

(** [s.replace(pat, rep)] with a string pattern: only the first occurrence
    is replaced.  The replacement texts of recorder.ts hold no dollar sign,
    so the substitution patterns of the replacement text are not
    modelled. *)
Fixpoint replace (s pat rep : jsstring) : jsstring :=
  if startsWith s pat then rep ++ drop (length pat) s
  else match s with
       | [] => []
       | c :: t => c :: replace t pat rep
       end.

(** [s.split(sep)] for a separator of one code unit. *)
Fixpoint split (s : jsstring) (sep : N) : list jsstring :=
  match s with
  | [] => [[]]
  | c :: t =>
      if (c =? sep)%N then [] :: split t sep
      else match split t sep with
           | h :: r => (c :: h) :: r
           | [] => [[c]]
           end
  end.

(** [a[0]] on an array of strings; [split] never returns an empty array. *)
Definition first (a : list jsstring) : jsstring := default [] (a !! 0%nat).

(** Truthiness of an optional string: [undefined] and the empty string are
    falsy. *)
Definition truthy (o : option jsstring) : bool :=
  match o with
  | Some (_ :: _) => true
  | _ => false
  end.

(** [o || d]. *)
Definition orElse (o : option jsstring) (d : jsstring) : jsstring :=
  match o with
  | Some (c :: t) => c :: t
  | _ => d
  end.

End JsString.

(** * Regular expressions

    The two patterns of [readHarFile] are alternations of sequences of
    literal characters and dots, tested without flags: the match may start
    anywhere, and a dot stands for any code unit that is not a line
    terminator. *)

Module Regex.

Inductive atom := Dot | Chr (c : N).

Definition isLineTerminator (c : N) : bool :=
  ((c =? 10) || (c =? 13) || (c =? 8232) || (c =? 8233))%N.

Definition matchesAtom (a : atom) (c : N) : bool :=
  match a with
  | Dot => negb (isLineTerminator c)
  | Chr d => (c =? d)%N
  end.

(** The sequence [p] matches a prefix of [s]. *)
Fixpoint matchesAt (p : list atom) (s : jsstring) {struct p} : bool :=
  match p, s with
  | [], _ => true
  | _ :: _, [] => false
  | a :: p', c :: s' => matchesAtom a c && matchesAt p' s'
  end.

(** [/alt1|alt2|.../.test(s)]. *)
Fixpoint test (alts : list (list atom)) (s : jsstring) : bool :=
  existsb (fun p => matchesAt p s) alts ||
  match s with
  | [] => false
  | _ :: t => test alts t
  end.

Definition lit (w : string) : list atom := Chr <$> js w.

(** [(.w)]: any character, then the literal [w]. *)
Definition dot (w : string) : list atom := Dot :: lit w.

End Regex.

(** [/(.png)|(.jpeg)|(.webp)|(.jpg)|(.gif)|(.css)|(.js)|(.woff2)/] *)
Definition assetExtensions : list string :=
  ["png"; "jpeg"; "webp"; "jpg"; "gif"; "css"; "js"; "woff2"]%string.

Definition assetUrlPattern : list (list Regex.atom) :=
  Regex.dot <$> assetExtensions.

(** [/(image)|(font)|(javascript)/] *)
Definition assetMimeWords : list string :=
  ["image"; "font"; "javascript"]%string.

Definition assetMimePattern : list (list Regex.atom) :=
  Regex.lit <$> assetMimeWords.

(** * JSON values and [JSON.parse]

    Objects keep their members as written (an association list in source
    order); a number keeps its literal, since the double it denotes is not
    needed here. *)

Inductive json :=
| JNull
| JBool (b : bool)
| JNumber (literal : jsstring)
| JString (s : jsstring)
| JArray (elements : list json)
| JObject (members : list (jsstring * json)).

(** The value of the text [{}]. *)
Definition emptyObject : json := JObject [].

Module Json.

Definition isWhitespace (c : N) : bool :=
  ((c =? 9) || (c =? 10) || (c =? 13) || (c =? 32))%N.

Fixpoint skipWs (s : jsstring) : jsstring :=
  match s with
  | c :: t => if isWhitespace c then skipWs t else s
  | [] => []
  end.

Definition isDigit (c : N) : bool := ((48 <=? c) && (c <=? 57))%N.

Definition hexValue (c : N) : option N :=
  if isDigit c then Some (c - 48)%N
  else if ((97 <=? c) && (c <=? 102))%N then Some (c - 87)%N
  else if ((65 <=? c) && (c <=? 70))%N then Some (c - 55)%N
  else None.

(** The longest prefix of digits, and what follows it. *)
Fixpoint digits (s : jsstring) : jsstring * jsstring :=
  match s with
  | c :: t => if isDigit c then let '(d, r) := digits t in (c :: d, r)
              else ([], s)
  | [] => ([], [])
  end.

(** The character an escape letter stands for. *)
Definition escapeOf (e : N) : option N :=
  if (e =? 34)%N then Some 34%N        (* quotation mark *)
  else if (e =? 92)%N then Some 92%N   (* reverse solidus *)
  else if (e =? 47)%N then Some 47%N   (* solidus *)
  else if (e =? 98)%N then Some 8%N    (* b *)
  else if (e =? 102)%N then Some 12%N  (* f *)
  else if (e =? 110)%N then Some 10%N  (* n *)
  else if (e =? 114)%N then Some 13%N  (* r *)
  else if (e =? 116)%N then Some 9%N   (* t *)
  else None.

(** The characters of a string literal after its opening quotation mark,
    up to the closing one. *)
Fixpoint stringBody (s : jsstring) : option (jsstring * jsstring) :=
  match s with
  | [] => None
  | c :: t =>
      if (c =? 34)%N then Some ([], t)
      else if (c =? 92)%N then
        match t with
        | [] => None
        | e :: t' =>
            if (e =? 117)%N then
              match t' with
              | h1 :: h2 :: h3 :: h4 :: t'' =>
                  a ← hexValue h1; b ← hexValue h2;
                  c ← hexValue h3; d ← hexValue h4;
                  '(body, r) ← stringBody t'';
                  Some ((a * 4096 + b * 256 + c * 16 + d)%N :: body, r)
              | _ => None
              end
            else
              u ← escapeOf e;
              '(body, r) ← stringBody t';
              Some (u :: body, r)
        end
      else if (c <? 32)%N then None
      else '(body, r) ← stringBody t; Some (c :: body, r)
  end.

(** A number literal: an optional minus sign, an integer part without
    leading zero, an optional fraction, an optional exponent. *)
Definition number (s : jsstring) : option (jsstring * jsstring) :=
  let '(sign, s1) :=
    match s with
    | c :: t => if (c =? 45)%N then ([c], t) else ([], s)
    | [] => ([], [])
    end in
  let '(int, s2) := digits s1 in
  match int with
  | [] => None
  | d :: more =>
      if (d =? 48)%N && negb (bool_decide (more = [])) then None
      else
        frac ←
          match s2 with
          | c :: t =>
              if (c =? 46)%N then
                let '(f, r) := digits t in
                match f with [] => None | _ => Some (c :: f, r) end
              else Some ([], s2)
          | [] => Some ([], [])
          end;
        let '(fr, s3) := frac in
        expo ←
          match s3 with
          | c :: t =>
              if ((c =? 101) || (c =? 69))%N then
                let '(sg, t') :=
                  match t with
                  | g :: u => if ((g =? 43) || (g =? 45))%N then ([g], u)
                              else ([], t)
                  | [] => ([], [])
                  end in
                let '(e, r) := digits t' in
                match e with [] => None | _ => Some (c :: sg ++ e, r) end
              else Some ([], s3)
          | [] => Some ([], [])
          end;
        let '(ex, s4) := expo in
        Some (sign ++ int ++ fr ++ ex, s4)
  end.

(** Recursive descent.  One step of each of the three parsers, given the
    parsers for what is nested in it. *)
Definition valueStep
    (elements : jsstring -> option (list json * jsstring))
    (members : jsstring -> option (list (jsstring * json) * jsstring))
    (s : jsstring) : option (json * jsstring) :=
  match skipWs s with
  | [] => None
  | c :: t =>
      if (c =? 123)%N then          (* left brace *)
        match skipWs t with
        | d :: t' =>
            if (d =? 125)%N then Some (JObject [], t')
            else '(ms, r) ← members (d :: t'); Some (JObject ms, r)
        | [] => None
        end
      else if (c =? 91)%N then      (* left bracket *)
        match skipWs t with
        | d :: t' =>
            if (d =? 93)%N then Some (JArray [], t')
            else '(vs, r) ← elements (d :: t'); Some (JArray vs, r)
        | [] => None
        end
      else if (c =? 34)%N then
        '(str, r) ← stringBody t; Some (JString str, r)
      else if JsString.startsWith (c :: t) (js "true") then
        Some (JBool true, drop 4 (c :: t))
      else if JsString.startsWith (c :: t) (js "false") then
        Some (JBool false, drop 5 (c :: t))
      else if JsString.startsWith (c :: t) (js "null") then
        Some (JNull, drop 4 (c :: t))
      else
        '(n, r) ← number (c :: t); Some (JNumber n, r)
  end.

Definition elementsStep
    (value : jsstring -> option (json * jsstring))
    (elements : jsstring -> option (list json * jsstring))
    (s : jsstring) : option (list json * jsstring) :=
  '(v, r) ← value s;
  match skipWs r with
  | c :: t =>
      if (c =? 44)%N then '(vs, r') ← elements t; Some (v :: vs, r')
      else if (c =? 93)%N then Some ([v], t)
      else None
  | [] => None
  end.

Definition membersStep
    (value : jsstring -> option (json * jsstring))
    (members : jsstring -> option (list (jsstring * json) * jsstring))
    (s : jsstring) : option (list (jsstring * json) * jsstring) :=
  match skipWs s with
  | q :: t =>
      if (q =? 34)%N then
        '(k, r) ← stringBody t;
        match skipWs r with
        | c :: t' =>
            if (c =? 58)%N then
              '(v, r') ← value t';
              match skipWs r' with
              | c' :: t'' =>
                  if (c' =? 44)%N then
                    '(ms, r'') ← members t''; Some ((k, v) :: ms, r'')
                  else if (c' =? 125)%N then Some ([(k, v)], t'')
                  else None
              | [] => None
              end
            else None
        | [] => None
        end
      else None
  | [] => None
  end.

(** [fuel] bounds the nesting of calls. *)
Fixpoint value (fuel : nat) (s : jsstring) : option (json * jsstring) :=
  match fuel with
  | O => None
  | S f => valueStep (elements f) (members f) s
  end
with elements (fuel : nat) (s : jsstring) : option (list json * jsstring) :=
  match fuel with
  | O => None
  | S f => elementsStep (value f) (elements f) s
  end
with members (fuel : nat) (s : jsstring)
    : option (list (jsstring * json) * jsstring) :=
  match fuel with
  | O => None
  | S f => membersStep (value f) (members f) s
  end.

(** [g'] succeeds wherever [g] does, with the same result. *)
Definition extends {A} (g g' : jsstring -> option A) : Prop :=
  forall s res, g s = Some res -> g' s = Some res.

(** [JSON.parse(text)]: [None] stands for the [SyntaxError] it throws.  Two
    levels of calls consume at least one character, so this fuel suffices
    for every text (lemma [parse_fuel]). *)
Definition parse (text : jsstring) : option json :=
  match value (2 * length text + 2) text with
  | Some (v, r) => match skipWs r with [] => Some v | _ => None end
  | None => None
  end.

End Json.

(** * [Buffer.from(text, "base64").toString()] *)

Module Buffer.

(** The byte the decoder reads for a code unit: its low eight bits. *)
Definition lowByte (c : N) : N := (c mod 256)%N.

(** The six bits a byte stands for; both the standard and the URL-safe
    alphabet are accepted. *)
Definition unbase64 (b : N) : option N :=
  if ((65 <=? b) && (b <=? 90))%N then Some (b - 65)%N
  else if ((97 <=? b) && (b <=? 122))%N then Some (b - 71)%N
  else if ((48 <=? b) && (b <=? 57))%N then Some (b + 4)%N
  else if ((b =? 43) || (b =? 45))%N then Some 62%N
  else if ((b =? 47) || (b =? 95))%N then Some 63%N
  else None.

(** The legal characters before the first padding sign; every code unit is
    read as its low byte, and bytes outside the alphabet are skipped. *)
Fixpoint sextets (s : jsstring) : list N :=
  match s with
  | [] => []
  | c :: t =>
      if (lowByte c =? 61)%N then []
      else match unbase64 (lowByte c) with
           | Some v => v :: sextets t
           | None => sextets t
           end
  end.

(** Four sextets give three bytes; an incomplete last group gives the
    bytes it determines. *)
Fixpoint bytesOf (v : list N) : list N :=
  match v with
  | a :: b :: c :: d :: r =>
      (a * 4 + b / 16)%N :: ((b mod 16) * 16 + c / 4)%N ::
      ((c mod 4) * 64 + d)%N :: bytesOf r
  | [a; b; c] => [(a * 4 + b / 16)%N; ((b mod 16) * 16 + c / 4)%N]
  | [a; b] => [(a * 4 + b / 16)%N]
  | _ => []
  end.

Definition fromBase64 (text : jsstring) : list N := bytesOf (sextets text).

(** UTF-8 decoding with replacement of ill-formed sequences. *)
Record decoder := {
  codePoint : N;
  needed : nat;       (* continuation bytes still expected *)
  lower : N;
  upper : N;
}.

Definition idle : decoder :=
  {| codePoint := 0; needed := 0; lower := 128; upper := 191 |}.

Definition replacement : N := 65533.

(** UTF-16 code units of a code point. *)
Definition codeUnits (cp : N) : jsstring :=
  if (cp <? 65536)%N then [cp]
  else [(55296 + (cp - 65536) / 1024)%N; (56320 + (cp - 65536) mod 1024)%N].

(** A byte met while no sequence is open. *)
Definition lead (b : N) : decoder * jsstring :=
  if (b <=? 127)%N then (idle, [b])
  else if ((194 <=? b) && (b <=? 223))%N then
    ({| codePoint := b mod 32; needed := 1; lower := 128; upper := 191 |}, [])
  else if ((224 <=? b) && (b <=? 239))%N then
    ({| codePoint := b mod 16; needed := 2;
        lower := if (b =? 224)%N then 160 else 128;
        upper := if (b =? 237)%N then 159 else 191 |}, [])
  else if ((240 <=? b) && (b <=? 244))%N then
    ({| codePoint := b mod 8; needed := 3;
        lower := if (b =? 240)%N then 144 else 128;
        upper := if (b =? 244)%N then 143 else 191 |}, [])
  else (idle, [replacement]).

Definition step (d : decoder) (b : N) : decoder * jsstring :=
  match needed d with
  | O => lead b
  | S n =>
      if ((lower d <=? b) && (b <=? upper d))%N then
        let cp := (codePoint d * 64 + b mod 64)%N in
        match n with
        | O => (idle, codeUnits cp)
        | S _ => ({| codePoint := cp; needed := n;
                     lower := 128; upper := 191 |}, [])
        end
      else
        let '(d', out) := lead b in (d', replacement :: out)
  end.

Fixpoint decode (d : decoder) (bytes : list N) : jsstring :=
  match bytes with
  | [] => match needed d with O => [] | S _ => [replacement] end
  | b :: r => let '(d', out) := step d b in out ++ decode d' r
  end.

(** [buffer.toString()] *)
Definition toString (bytes : list N) : jsstring := decode idle bytes.

End Buffer.

(** * The captured trace and the mock records *)

(** Modelled from the spec: the type declarations [HAR] and [RecordRequest]
    of ./models, which is not among the sources.  A trace entry holds the
    request (method, url, optional body) and the response (status,
    content-type, body text); a mock record is
    [{ url, request, requestData, response }]. *)

Record PostData := {
  pd_mimeType : jsstring;
  pd_text : option jsstring;
}.

Record Request := {
  method : jsstring;
  url : jsstring;
  postData : option PostData;
}.

Record Content := {
  mimeType : jsstring;
  text : option jsstring;
}.

Record Response := {
  status : N;
  content : Content;
}.

Record Entry := {
  request : Request;
  response : Response;
}.

(** [result.log.entries] *)
Record HAR := { entries : list Entry }.

Record RecordRequest := {
  rr_url : jsstring;
  rr_request : Request;
  requestData : json;
  rr_response : json;
}.

(** * Errors and outcomes *)

Inductive BrowserCall := Launch | NewPage | Goto | Pause | Close.

#[global] Instance BrowserCall_eq_dec : EqDecision BrowserCall.
Proof. solve_decision. Defined.

Inductive Error :=
| TypeError
| SyntaxError
| NoSuchFile (path : jsstring)
| CaptureArtifactMissing
| PersistFailure
| BrowserError (call : BrowserCall).

(** How a computation ends.  [Thrown] is an exception in synchronous code and
    a rejected promise in asynchronous code.  [Uncaught] is an exception
    raised inside a callback that runs outside every handler: no [catch]
    sees it, and the promise that was waiting for the callback never
    settles. *)
Inductive Outcome (A : Type) :=
| Returned (a : A)
| Thrown (e : Error)
| Uncaught (e : Error).

Arguments Returned {A} a.
Arguments Thrown {A} e.
Arguments Uncaught {A} e.

(** [array.map(f)] with a callback that may throw: the first exception ends
    the traversal. *)
Fixpoint mapArray {A B} (f : A -> Outcome B) (l : list A) : Outcome (list B) :=
  match l with
  | [] => Returned []
  | x :: r =>
      match f x with
      | Returned y =>
          match mapArray f r with
          | Returned ys => Returned (y :: ys)
          | Thrown e => Thrown e
          | Uncaught e => Uncaught e
          end
      | Thrown e => Thrown e
      | Uncaught e => Uncaught e
      end
  end.

(** [JSON.parse(text)] as a computation. *)
Definition JSON_parse (text : jsstring) : Outcome json :=
  match Json.parse text with
  | Some v => Returned v
  | None => Thrown SyntaxError
  end.

(** * The normalizer: [readHarFile], lines 20 to 43 *)

(** The three cuts of [endpointOfUrl], below. *)
Module Endpoint.

(** What follows the first [://], or the whole text when there is none. *)
Fixpoint afterScheme (u : jsstring) : option jsstring :=
  if JsString.startsWith u (js "://") then Some (drop 3 u)
  else match u with
       | [] => None
       | _ :: t => afterScheme t
       end.

(** From the first solidus on. *)
Fixpoint fromSlash (u : jsstring) : jsstring :=
  match u with
  | [] => []
  | c :: t => if (c =? 47)%N then u else fromSlash t
  end.

(** Up to the query or the fragment. *)
Fixpoint beforeQuery (u : jsstring) : jsstring :=
  match u with
  | [] => []
  | c :: t => if ((c =? 63) || (c =? 35))%N then [] else c :: beforeQuery t
  end.

End Endpoint.

(** Modelled from the spec: [endpointOfUrl] of ./utils, which is not among
    the sources: the path component of the request URL, with scheme, host and
    query stripped. *)
Definition endpointOfUrl (u : jsstring) : jsstring :=
  Endpoint.beforeQuery (Endpoint.fromSlash (default u (Endpoint.afterScheme u))).

(** The callback of [.filter], lines 21 to 31. *)
Definition keepEntry (host : jsstring) (e : Entry) : bool :=
  let url := url (request e) in
  negb (JsString.includes url host) &&
  negb (Regex.test assetUrlPattern url) &&
  negb (Regex.test assetMimePattern (mimeType (content (response e)))).

(** [request?.postData?.text] *)
Definition postDataText (r : Request) : option jsstring :=
  pd ← postData r; pd_text pd.

(** Lines 33 to 35. *)
Definition responseString (r : Response) : jsstring :=
  if JsString.truthy (text (content r))
  then Buffer.toString (Buffer.fromBase64 (default [] (text (content r))))
  else js "{}".

(** The callback of [.map], lines 32 to 43. *)
Definition toRecord (e : Entry) : Outcome RecordRequest :=
  let url := endpointOfUrl (url (request e)) in
  match JSON_parse (JsString.orElse (postDataText (request e)) (js "{}")) with
  | Returned data =>
      match JSON_parse (responseString (response e)) with
      | Returned resp =>
          Returned {| rr_url := url; rr_request := request e;
                      requestData := data; rr_response := resp |}
      | Thrown err => Thrown err
      | Uncaught err => Uncaught err
      end
  | Thrown err => Thrown err
  | Uncaught err => Uncaught err
  end.

(** Lines 20 to 43. *)
Definition xgrRequests (host : jsstring) (result : HAR)
    : Outcome (list RecordRequest) :=
  mapArray toRecord (List.filter (keepEntry host) (entries result)).


(** * The world of a capture run

    Files are modelled by what their text denotes: the JSON of a HAR
    document, the JSON array of a mock set, or text that is not JSON. *)

Inductive FileData :=
| HarDocument (h : HAR)
| MockSetDocument (ms : list RecordRequest)
| NotJson.

(** What the browsing collaborator (Playwright) does in this run: which of
    its calls reject, what traffic the session observes, and after how many
    polls of the file system the trace it records is on disk ([None]:
    never). *)
Record Browser := {
  rejects : BrowserCall -> bool;
  traffic : HAR;
  flushDelay : option nat;
}.

Inductive ConsoleLine :=
| Log (msg : jsstring)
| LogError (e : Error).

Record World := {
  fs : gmap jsstring FileData;
  pending : list (nat * jsstring * FileData);  (* writes still under way *)
  readOnly : gset jsstring;                    (* paths that cannot be written *)
  console : list ConsoleLine;
  launched : list jsstring;     (* recordHar.path of every context launched *)
  visited : list jsstring;      (* routes navigated to *)
  httpLogs : bool;
  browser : Browser;
}.

Definition setFs (f : gmap jsstring FileData -> gmap jsstring FileData)
    (w : World) : World :=
  {| fs := f (fs w); pending := pending w; readOnly := readOnly w;
     console := console w; launched := launched w; visited := visited w;
     httpLogs := httpLogs w; browser := browser w |}.

Definition setPending (p : list (nat * jsstring * FileData)) (w : World)
    : World :=
  {| fs := fs w; pending := p; readOnly := readOnly w;
     console := console w; launched := launched w; visited := visited w;
     httpLogs := httpLogs w; browser := browser w |}.

Definition print (l : ConsoleLine) (w : World) : World :=
  {| fs := fs w; pending := pending w; readOnly := readOnly w;
     console := console w ++ [l]; launched := launched w;
     visited := visited w; httpLogs := httpLogs w; browser := browser w |}.

(** One poll interval passes: the writes that are due land on disk. *)
Fixpoint land (p : list (nat * jsstring * FileData))
    (files : gmap jsstring FileData)
    : gmap jsstring FileData * list (nat * jsstring * FileData) :=
  match p with
  | [] => (files, [])
  | (O, path, d) :: r => land r (<[path := d]> files)
  | (S n, path, d) :: r =>
      let '(files', r') := land r files in (files', (n, path, d) :: r')
  end.

Definition tick (w : World) : World :=
  let '(files, p) := land (pending w) (fs w) in
  setPending p (setFs (fun _ => files) w).

(** * Computations over a state *)

Definition M (S A : Type) : Type := S -> Outcome A * S.

Definition ret {S A} (a : A) : M S A := fun s => (Returned a, s).

Definition throw {S A} (e : Error) : M S A := fun s => (Thrown e, s).

Definition bind {S A B} (m : M S A) (k : A -> M S B) : M S B :=
  fun s =>
    match m s with
    | (Returned a, s') => k a s'
    | (Thrown e, s') => (Thrown e, s')
    | (Uncaught e, s') => (Uncaught e, s')
    end.

(** [try { body } catch (e) { handler }]: only a thrown exception (a
    rejection of an awaited promise) reaches the handler. *)
Definition tryCatch {S A} (body : M S A) (handler : Error -> M S A) : M S A :=
  fun s =>
    match body s with
    | (Thrown e, s') => handler e s'
    | r => r
    end.

Declare Scope js_scope.
Delimit Scope js_scope with js.
Notation "'await' x ':=' m 'in' k" := (bind m (fun x => k))
  (at level 10, x name, m at level 100, k at level 200) : js_scope.
Notation "m ';;;' k" := (bind m (fun _ => k))
  (at level 100, k at level 200, right associativity) : js_scope.

(** A local variable of type [L] next to the world. *)
Definition lift {L A} (m : M World A) : M (L * World) A :=
  fun '(l, w) => let '(o, w') := m w in (o, (l, w')).

Definition assign {L} (v : L) : M (L * World) unit :=
  fun '(_, w) => (Returned tt, (v, w)).

Definition readVar {L} : M (L * World) L :=
  fun '(l, w) => (Returned l, (l, w)).

(** [let x = init; body] *)
Definition letVar {L A} (init : L) (body : M (L * World) A) : M World A :=
  fun w => let '(o, (_, w')) := body (init, w) in (o, w').

(** * The collaborators *)

Definition console_log (msg : string) : M World unit :=
  fun w => (Returned tt, print (Log (js msg)) w).

Definition console_error (e : Error) : M World unit :=
  fun w => (Returned tt, print (LogError e) w).

Definition browserCall (c : BrowserCall) (effect : World -> World)
    : M World unit :=
  fun w =>
    if rejects (browser w) c then (Thrown (BrowserError c), w)
    else (Returned tt, effect w).

(** [chromium.launchPersistentContext(dir, { recordHar: { path } })] *)
Definition launchPersistentContext (harPath : jsstring) : M World unit :=
  browserCall Launch (fun w =>
    {| fs := fs w; pending := pending w; readOnly := readOnly w;
       console := console w; launched := launched w ++ [harPath];
       visited := visited w; httpLogs := httpLogs w; browser := browser w |}).

Definition newPage : M World unit := browserCall NewPage id.

Definition goto (route : jsstring) : M World unit :=
  browserCall Goto (fun w =>
    {| fs := fs w; pending := pending w; readOnly := readOnly w;
       console := console w; launched := launched w;
       visited := visited w ++ [route]; httpLogs := httpLogs w;
       browser := browser w |}).

Definition pause : M World unit := browserCall Pause id.

(** [browser.close()]: the trace of the session goes to the path it was
    launched with, at once or after the flush delay. *)
Definition close (harPath : jsstring) : M World unit :=
  browserCall Close (fun w =>
    let doc := HarDocument (traffic (browser w)) in
    match flushDelay (browser w) with
    | None => w
    | Some O => setFs (insert harPath doc) w
    | Some (S n) => setPending (pending w ++ [(n, harPath, doc)]) w
    end).

(** Modelled from the spec: [setHttpLogs] of ./utils, which is not among the
    sources.  The spec does not describe it; by its name it turns the logging
    of the page's traffic on. *)
Definition setHttpLogs : M World unit :=
  fun w =>
    (Returned tt,
     {| fs := fs w; pending := pending w; readOnly := readOnly w;
        console := console w; launched := launched w; visited := visited w;
        httpLogs := true; browser := browser w |}).

(** Modelled from the spec: [waitForFileExists] of ./utils, which is not
    among the sources: wait for the file to become readable, polling with
    bounded retries; fails with [CaptureArtifactMissing] if it never
    materializes within the retry budget. *)
Fixpoint waitForFileExists (retries : nat) (path : jsstring)
    : M World unit :=
  fun w =>
    match fs w !! path with
    | Some _ => (Returned tt, w)
    | None =>
        match retries with
        | O => (Thrown CaptureArtifactMissing, w)
        | S r => waitForFileExists r path (tick w)
        end
    end.

(** Modelled from the spec: [writeFile] of ./utils, which is not among the
    sources: persist the mock set as a JSON array of its records; fails with
    [PersistFailure] on a write error. *)
Definition writeFile (path : jsstring) (data : list RecordRequest)
    : M World unit :=
  fun w =>
    if decide (path ∈ readOnly w) then (Thrown PersistFailure, w)
    else (Returned tt, setFs (insert path (MockSetDocument data)) w).

(** Modelled from the spec: [removeFile] of ./utils, which is not among the
    sources: best-effort deletion of the file. *)
Definition removeFile (path : jsstring) : M World unit :=
  fun w => (Returned tt, setFs (delete path) w).

(** [JSON.parse(data.toString())] read as a [HAR], up to [result.log.entries]:
    text that is not JSON is a [SyntaxError], and the array of a mock set
    has no [log], so that [.entries] is a [TypeError]. *)
Definition parseHar (d : FileData) : Outcome HAR :=
  match d with
  | HarDocument h => Returned h
  | MockSetDocument _ => Thrown TypeError
  | NotJson => Thrown SyntaxError
  end.

(** [readHarFile], lines 13 to 48.  The promise is rejected only through
    [reject(err)]; the rest of the callback of [fs.readFile] runs after the
    executor has returned, so an exception thrown there is not turned into a
    rejection and [resolve] is never called. *)
Definition readHarFile (path host : jsstring) : M World (list RecordRequest) :=
  fun w =>
    match fs w !! path with
    | None => (Thrown (NoSuchFile path), w)
    | Some data =>
        match parseHar data with
        | Returned result =>
            match xgrRequests host result with
            | Returned requests => (Returned requests, w)
            | Thrown e | Uncaught e => (Uncaught e, w)
            end
        | Thrown e | Uncaught e => (Uncaught e, w)
        end
    end.

(** Line 88: [route.replace("https://", "").replace("http://", "").split("/")[0]] *)
Definition hostOfRoute (route : jsstring) : jsstring :=
  JsString.first
    (JsString.split
       (JsString.replace (JsString.replace route (js "https://") [])
          (js "http://") [])
       47).

(** * [recordHar], lines 50 to 102 *)

Section RecordHar.

(** The retry budget of [waitForFileExists]. *)
Variable retries : nat.

Open Scope js_scope.

(** Line 55. *)
Definition harPathOf (filePath : jsstring) : jsstring :=
  JsString.replace filePath (js ".json") (js ".temp.har").

(** Lines 57 to 77: the capture session, outside every [try]. *)
Definition captureSession (route harPath : jsstring) (logRecording : bool)
    : M World unit :=
  launchPersistentContext harPath ;;;
  newPage ;;;
  goto route ;;;
  (if logRecording then setHttpLogs else ret tt) ;;;
  console_log "Recording requests" ;;;
  pause ;;;
  close harPath.

(** Lines 79 to 101: the processing of the recording.  The local variable
    [requests] starts as the empty array and is what the function returns,
    whether the [try] block completed or the [catch] block ran. *)
Definition processRecording (route filePath harPath : jsstring)
    : M World (list RecordRequest) :=
  letVar []
    (tryCatch
       (lift (console_log "Processing recording...") ;;;
        lift (waitForFileExists retries filePath) ;;;
        await requests := lift (readHarFile harPath (hostOfRoute route)) in
        assign requests ;;;
        lift (writeFile filePath requests) ;;;
        lift (removeFile harPath) ;;;
        lift (console_log "Recording successfully saved!"))
       (fun e =>
          lift (console_error e) ;;;
          lift (removeFile harPath)) ;;;
     readVar).

Definition recordHar (route : jsstring) (filePath : option jsstring)
    (logRecording : bool) : M World (list RecordRequest) :=
  match filePath with
  | None => throw TypeError      (* [filePath.replace] on [undefined] *)
  | Some filePath =>
      let harPath := harPathOf filePath in
      captureSession route harPath logRecording ;;;
      processRecording route filePath harPath
  end.

End RecordHar.

(** * Sample traces *)

Module Sample.

Definition get (u mime : string) (body : option string) : Entry :=
  {| request := {| method := js "GET"; url := js u; postData := None |};
     response := {| status := 200;
                    content := {| mimeType := js mime; text := js <$> body |} |} |}.

Definition post (u bodyType body : string) : Entry :=
  {| request := {| method := js "POST"; url := js u;
                   postData := Some {| pd_mimeType := js bodyType;
                                       pd_text := Some (js body) |} |};
     response := {| status := 200;
                    content := {| mimeType := js "application/json";
                                  text := Some (js "e30=") |} |} |}.

Definition route : jsstring := js "https://app.test/login".
Definition host : jsstring := js "app.test".
Definition filePath : jsstring := js "tests/login.spec.mocks.json".
Definition harPath : jsstring := js "tests/login.spec.mocks.temp.har".

(** The page itself, loaded from the target origin. *)
Definition page : Entry := get "https://app.test/login" "text/html" None.

(** An API call; its body is the base64 text of an object with an empty
    array of items. *)
Definition items : Entry :=
  get "https://api.example.org/api/items?page=1" "application/json"
    (Some "eyJpdGVtcyI6W119"%string).

Definition logo : Entry := get "https://cdn.example.org/logo.png" "image/png" None.

(** A stylesheet served from a URL without extension. *)
Definition stylesheet : Entry := get "https://cdn.example.org/theme" "text/css" None.

(** A form post: its body is not JSON. *)
Definition formPost : Entry :=
  post "https://api.example.org/api/session"
    "application/x-www-form-urlencoded" "user=a&pass=b".

(** A post with a JSON body. *)
Definition order : Entry :=
  post "https://api.example.org/api/orders" "application/json" "[7]".

Definition itemsRecord : RecordRequest :=
  {| rr_url := js "/api/items"; rr_request := request items;
     requestData := emptyObject;
     rr_response := JObject [(js "items", JArray [])] |}.

Definition orderRecord : RecordRequest :=
  {| rr_url := js "/api/orders"; rr_request := request order;
     requestData := JArray [JNumber (js "7")];
     rr_response := emptyObject |}.

Definition stylesheetRecord : RecordRequest :=
  {| rr_url := js "/theme"; rr_request := request stylesheet;
     requestData := emptyObject; rr_response := emptyObject |}.

Definition quiet : Browser :=
  {| rejects := fun _ => false; traffic := {| entries := [] |};
     flushDelay := Some 0%nat |}.

(** A session that observes the entries [es]; its trace is on disk when the
    session is closed. *)
Definition observing (es : list Entry) : Browser :=
  {| rejects := fun _ => false; traffic := {| entries := es |};
     flushDelay := Some 0%nat |}.

(** A browser whose call [c] rejects. *)
Definition failing (c : BrowserCall) : Browser :=
  {| rejects := fun c' => bool_decide (c' = c); traffic := {| entries := [] |};
     flushDelay := Some 0%nat |}.

(** Nothing on disk yet. *)
Definition fresh (b : Browser) : World :=
  {| fs := ∅; pending := []; readOnly := ∅; console := []; launched := [];
     visited := []; httpLogs := false; browser := b |}.

(** A file that is not a mock set is already at the mock-set path. *)
Definition stale (b : Browser) : World :=
  {| fs := {[ filePath := NotJson ]}; pending := []; readOnly := ∅;
     console := []; launched := []; visited := []; httpLogs := false;
     browser := b |}.

(** A world whose only file is the trace [es] at [harPath]. *)
Definition withTrace (es : list Entry) : World :=
  {| fs := {[ harPath := HarDocument {| entries := es |} ]};
     pending := []; readOnly := ∅; console := []; launched := [];
     visited := []; httpLogs := false; browser := quiet |}.

End Sample.

(** * Further scenarios *)

Module Scenario.
(** A session whose trace never reaches the disk. *)
Definition lost (es : list Entry) : Browser :=
  {| rejects := fun _ => false; traffic := {| entries := es |};
     flushDelay := None |}.

(** A file is at the mock-set path and cannot be written. *)
Definition locked (b : Browser) : World :=
  {| fs := {[ Sample.filePath := NotJson ]}; pending := [];
     readOnly := {[ Sample.filePath ]}; console := []; launched := [];
     visited := []; httpLogs := false; browser := b |}.

(** A post to the target origin itself, with a body that is not JSON. *)
Definition login : Entry :=
  Sample.post "https://app.test/session"
    "application/x-www-form-urlencoded" "user=a&pass=b".
End Scenario.

(** * Properties of the built-ins *)

Section Builtins.

Import JsString.

Lemma startsWith_app (s post : jsstring) : startsWith (s ++ post) s = true.
Proof.
  induction s as [|c s IH]; simpl; [done|].
  by rewrite N.eqb_refl, IH.
Qed.

Lemma includes_unfold (s p : jsstring) :
  includes s p =
  startsWith s p || match s with [] => false | _ :: t => includes t p end.
Proof. by destruct s. Qed.

Lemma includes_app (pre s post : jsstring) :
  includes (pre ++ s ++ post) s = true.
Proof.
  induction pre as [|c pre IH].
  - rewrite includes_unfold. simpl. by rewrite startsWith_app.
  - rewrite includes_unfold. simpl. rewrite IH. apply orb_true_r.
Qed.

Lemma startsWith_length (s p : jsstring) :
  startsWith s p = true -> length p <= length s.
Proof.
  revert s; induction p as [|a p IH]; intros [|b s]; simpl; try lia; try done.
  intros [_ H]%andb_true_iff. apply IH in H. lia.
Qed.

(** Replacing an occurrence of [pat] by a text of another length changes the
    length of the string. *)
Lemma replace_length (s pat rep : jsstring) :
  includes s pat = true ->
  length (replace s pat rep) + length pat = length s + length rep.
Proof.
  induction s as [|c s IH]; intros Hin.
  - rewrite includes_unfold, orb_false_r in Hin. cbn [replace]. rewrite Hin.
    apply startsWith_length in Hin.
    rewrite length_app, length_drop. simpl in *. lia.
  - rewrite includes_unfold in Hin. cbn [replace].
    destruct (startsWith (c :: s) pat) eqn:Hs.
    + apply startsWith_length in Hs.
      rewrite length_app, length_drop. lia.
    + simpl in Hin. apply IH in Hin. simpl. lia.
Qed.

Lemma replace_absent (s pat rep : jsstring) :
  includes s pat = false -> replace s pat rep = s.
Proof.
  induction s as [|c s IH]; intros Hin;
    rewrite includes_unfold in Hin; apply orb_false_iff in Hin as [Hs Hin];
    cbn [replace]; rewrite Hs; [done|].
  by rewrite IH.
Qed.

(** A pattern whose first part holds no solidus cannot begin inside a text
    without solidus that is followed by one, unless that text begins with
    the first part. *)
Lemma startsWith_before_slash (h rest p q : jsstring) :
  47%N ∉ p ->
  startsWith (h ++ 47%N :: rest) (p ++ q) = true -> startsWith h p = true.
Proof.
  revert h; induction p as [|a p IH]; intros h Hp; [done|].
  apply not_elem_of_cons in Hp as [Ha Hp].
  destruct h as [|c h]; simpl.
  - intros [Heq _]%andb_true_iff. apply N.eqb_eq in Heq. done.
  - intros [Heq Hs]%andb_true_iff. rewrite Heq. simpl. by apply IH.
Qed.

Lemma replace_http_host (h rest : jsstring) :
  includes h (js "http:") = false ->
  replace (h ++ 47%N :: rest) (js "http://") []
  = h ++ replace (47%N :: rest) (js "http://") [].
Proof.
  induction h as [|c h IH]; intros Hinc; [done|].
  rewrite includes_unfold in Hinc. apply orb_false_iff in Hinc as [Hs Hinc].
  change ((c :: h) ++ 47%N :: rest) with (c :: (h ++ 47%N :: rest)).
  cbn [replace].
  destruct (startsWith (c :: h ++ 47%N :: rest) (js "http://")) eqn:E.
  - apply (startsWith_before_slash (c :: h) rest (js "http:") (js "//")) in E.
    + congruence.
    + apply (bool_decide_unpack _). vm_compute. exact I.
  - simpl. by rewrite IH.
Qed.

Lemma split_first (h rest : jsstring) :
  47%N ∉ h -> first (split (h ++ 47%N :: rest) 47) = h.
Proof.
  induction h as [|c h IH]; intros Hh.
  - simpl. done.
  - apply not_elem_of_cons in Hh as [Hc Hh]. simpl.
    destruct (N.eqb_spec c 47) as [->|_]; [done|].
    specialize (IH Hh). unfold first in *.
    destruct (split (h ++ 47%N :: rest) 47) as [|x l]; simpl in *; by subst.
Qed.

(** For a route [https://host/...] the host that [recordHar] hands to
    [readHarFile] is the host of the route. *)
Lemma hostOfRoute_https (h rest : jsstring) :
  47%N ∉ h -> includes h (js "http:") = false ->
  hostOfRoute (js "https://" ++ h ++ 47%N :: rest) = h.
Proof.
  intros Hh Hinc. unfold hostOfRoute.
  change (replace (js "https://" ++ h ++ 47%N :: rest) (js "https://") [])
    with (h ++ 47%N :: rest).
  rewrite replace_http_host by done.
  change (replace (47%N :: rest) (js "http://") [])
    with (47%N :: replace rest (js "http://") []).
  by apply split_first.
Qed.

Lemma matchesAt_lit (w post : jsstring) :
  Regex.matchesAt (Regex.Chr <$> w) (w ++ post) = true.
Proof.
  induction w as [|c w IH]; simpl; [done|].
  rewrite N.eqb_refl. exact IH.
Qed.

Lemma test_unfold (alts : list (list Regex.atom)) (s : jsstring) :
  Regex.test alts s =
  existsb (fun p => Regex.matchesAt p s) alts ||
  match s with [] => false | _ :: t => Regex.test alts t end.
Proof. by destruct s. Qed.

Lemma test_at (alts : list (list Regex.atom)) (pre s : jsstring) (p : list Regex.atom) :
  p ∈ alts -> Regex.matchesAt p s = true -> Regex.test alts (pre ++ s) = true.
Proof.
  intros Hp Hm. induction pre as [|c pre IH].
  - rewrite test_unfold. simpl.
    replace (existsb _ alts) with true; [done|].
    symmetry. apply existsb_exists. exists p. split; [|done].
    by apply list_elem_of_In.
  - rewrite test_unfold. simpl. rewrite IH. apply orb_true_r.
Qed.

(** A URL in which some character that is not a line terminator is followed
    by one of the extensions matches the first pattern. *)
Lemma assetUrlPattern_matches (ext : string) (c : N) (pre post : jsstring) :
  ext ∈ assetExtensions ->
  Regex.isLineTerminator c = false ->
  Regex.test assetUrlPattern (pre ++ c :: js ext ++ post) = true.
Proof.
  intros Hext Hc. apply test_at with (p := Regex.dot ext).
  - unfold assetUrlPattern. by apply list_elem_of_fmap_2.
  - unfold Regex.dot, Regex.lit. cbn [Regex.matchesAt Regex.matchesAtom].
    by rewrite Hc, matchesAt_lit.
Qed.

(** A content-type that contains one of the three words matches the second
    pattern. *)
Lemma assetMimePattern_matches (word : string) (pre post : jsstring) :
  word ∈ assetMimeWords ->
  Regex.test assetMimePattern (pre ++ js word ++ post) = true.
Proof.
  intros Hw. apply test_at with (p := Regex.lit word).
  - unfold assetMimePattern. by apply list_elem_of_fmap_2.
  - unfold Regex.lit. apply matchesAt_lit.
Qed.

End Builtins.

(** * The fuel of the JSON parser *)

Section JsonFuel.

Import Json.

Lemma skipWs_length (s : jsstring) : length (skipWs s) <= length s.
Proof. induction s as [|c s IH]; simpl; [lia|]. destruct (isWhitespace c); simpl; lia. Qed.

Lemma digits_length (s d r : jsstring) : digits s = (d, r) -> length r <= length s.
Proof.
  revert d r; induction s as [|c s IH]; simpl; intros d r.
  - intros [= <- <-]. simpl. lia.
  - destruct (isDigit c); [|intros [= <- <-]; simpl; lia].
    destruct (digits s) as [d' r'] eqn:E. intros [= <- <-].
    specialize (IH _ _ eq_refl). lia.
Qed.

Lemma stringBody_length (s b r : jsstring) :
  stringBody s = Some (b, r) -> length r <= length s.
Proof.
  remember (length s) as n eqn:Hn.
  assert (Hle : length s <= n) by lia. clear Hn.
  revert s b r Hle. induction n as [|n IH]; intros s b r Hle.
  - destruct s; [done|simpl in Hle; lia].
  - destruct s as [|c t]; [done|]. simpl in Hle. cbn [stringBody].
    destruct (c =? 34)%N; [intros [= <- <-]; lia|].
    destruct (c =? 92)%N.
    + destruct t as [|e t']; [done|]. simpl in Hle.
      destruct (e =? 117)%N.
      * destruct t' as [|h1 [|h2 [|h3 [|h4 t'']]]]; try done. simpl in Hle.
        destruct (hexValue h1), (hexValue h2), (hexValue h3), (hexValue h4); try done.
        simpl. destruct (stringBody t'') as [[b' r']|] eqn:E; [|done].
        intros [= <- <-]. apply IH in E; lia.
      * destruct (escapeOf e); [|done]. simpl.
        destruct (stringBody t') as [[b' r']|] eqn:E; [|done].
        intros [= <- <-]. apply IH in E; lia.
    + destruct (c <? 32)%N; [done|].
      destruct (stringBody t) as [[b' r']|] eqn:E; [|done].
      simpl. intros [= <- <-]. apply IH in E; lia.
Qed.

Lemma number_length (s n r : jsstring) :
  number s = Some (n, r) -> length r <= length s.
Proof.
  unfold number.
  set (p := match s with [] => _ | _ => _ end).
  assert (Hp : length p.2 <= length s).
  { subst p. destruct s as [|c t]; simpl; [lia|]. destruct (c =? 45)%N; simpl; lia. }
  destruct p as [sign s1]. simpl in Hp.
  destruct (digits s1) as [int s2] eqn:Hd. apply digits_length in Hd.
  destruct int as [|d more]; [done|].
  destruct ((d =? 48)%N && _); [done|].
  set (fr := match s2 with [] => _ | _ => _ end).
  assert (Hfr : forall f s3, fr = Some (f, s3) -> length s3 <= length s2).
  { subst fr. intros f s3. destruct s2 as [|c t]; [intros [= <- <-]; simpl; lia|].
    destruct (c =? 46)%N; [|intros [= <- <-]; simpl; lia].
    destruct (digits t) as [f' r'] eqn:E. apply digits_length in E.
    destruct f'; [done|]. intros [= <- <-]. simpl. lia. }
  destruct fr as [[f s3]|]; [|done]. specialize (Hfr _ _ eq_refl). simpl.
  set (ex := match s3 with [] => _ | _ => _ end).
  assert (Hex : forall e s4, ex = Some (e, s4) -> length s4 <= length s3).
  { subst ex. intros e s4. destruct s3 as [|c t]; [intros [= <- <-]; simpl; lia|].
    destruct ((c =? 101) || (c =? 69))%N; [|intros [= <- <-]; simpl; lia].
    set (q := match t with [] => _ | _ => _ end).
    assert (Hq : length q.2 <= length t).
    { subst q. destruct t as [|g u]; simpl; [lia|].
      destruct ((g =? 43) || (g =? 45))%N; simpl; lia. }
    destruct q as [sg t']. simpl in Hq.
    destruct (digits t') as [e' r'] eqn:E. apply digits_length in E.
    destruct e'; [done|]. intros [= <- <-]. simpl. lia. }
  destruct ex as [[e s4]|]; [|done]. specialize (Hex _ _ eq_refl). simpl.
  intros [= <- <-]. lia.
Qed.

Lemma valueStep_extends e e' m m' :
  extends e e' -> extends m m' -> extends (valueStep e m) (valueStep e' m').
Proof.
  intros He Hm s res. unfold valueStep.
  destruct (skipWs s) as [|c t]; [done|].
  repeat (case_match; try done).
  - destruct (m _) as [[ms r]|] eqn:E; [|done]. by rewrite (Hm _ _ E).
  - destruct (e _) as [[vs r]|] eqn:E; [|done]. by rewrite (He _ _ E).
Qed.

Lemma elementsStep_extends v v' e e' :
  extends v v' -> extends e e' ->
  extends (elementsStep v e) (elementsStep v' e').
Proof.
  intros Hv He s res. unfold elementsStep.
  destruct (v s) as [[x r]|] eqn:E; [|done]. rewrite (Hv _ _ E). simpl.
  repeat (case_match; try done).
  destruct (e _) as [[vs r']|] eqn:E'; [|done]. by rewrite (He _ _ E').
Qed.

Lemma membersStep_extends v v' m m' :
  extends v v' -> extends m m' ->
  extends (membersStep v m) (membersStep v' m').
Proof.
  intros Hv Hm s res. unfold membersStep.
  destruct (skipWs s) as [|q t]; [done|].
  destruct (q =? 34)%N; [|done].
  destruct (stringBody t) as [[k r]|]; [|done]. simpl.
  destruct (skipWs r) as [|c t']; [done|].
  destruct (c =? 58)%N; [|done].
  destruct (v t') as [[x r']|] eqn:E; [|done]. rewrite (Hv _ _ E). simpl.
  destruct (skipWs r') as [|c' t'']; [done|].
  destruct (c' =? 44)%N; [|done].
  destruct (m t'') as [[ms r'']|] eqn:E'; [|done]. by rewrite (Hm _ _ E').
Qed.

Lemma fuel_S (f : nat) :
  extends (value f) (value (S f)) /\
  extends (elements f) (elements (S f)) /\
  extends (members f) (members (S f)).
Proof.
  induction f as [|f (IHv & IHe & IHm)];
    [repeat split; intros s res; discriminate|].
  split; [|split].
  - by apply valueStep_extends.
  - by apply elementsStep_extends.
  - by apply membersStep_extends.
Qed.

Lemma fuel_le (f f' : nat) :
  f <= f' ->
  extends (value f) (value f') /\
  extends (elements f) (elements f') /\
  extends (members f) (members f').
Proof.
  induction 1 as [|f' _ (IHv & IHe & IHm)];
    [by repeat split; intros s res|].
  destruct (fuel_S f') as (Hv & He & Hm).
  repeat split; intros s res H; eauto.
Qed.

Lemma value_fuel_le (f f' : nat) (s : jsstring) res :
  f <= f' -> value f s = Some res -> value f' s = Some res.
Proof. intros Hle. by apply fuel_le. Qed.

Lemma elements_fuel_le (f f' : nat) (s : jsstring) res :
  f <= f' -> elements f s = Some res -> elements f' s = Some res.
Proof. intros Hle. by apply fuel_le. Qed.

Lemma members_fuel_le (f f' : nat) (s : jsstring) res :
  f <= f' -> members f s = Some res -> members f' s = Some res.
Proof. intros Hle. by apply fuel_le. Qed.

(** The fuel a successful run needs is bounded by the characters it
    consumes. *)
Lemma fuel_bound (f : nat) :
  (forall s v r, value f s = Some (v, r) ->
     length r <= length s /\
     value (2 * (length s - length r) + 1) s = Some (v, r)) /\
  (forall s vs r, elements f s = Some (vs, r) ->
     length r <= length s /\
     elements (2 * (length s - length r) + 2) s = Some (vs, r)) /\
  (forall s ms r, members f s = Some (ms, r) ->
     length r <= length s /\
     members (2 * (length s - length r) + 2) s = Some (ms, r)).
Proof.
  induction f as [|f (IHv & IHe & IHm)];
    [split; [|split]; intros s x r H; discriminate H|].
  split; [|split].
  - intros s v r.
    replace (2 * (length s - length r) + 1)
      with (S (2 * (length s - length r))) by lia.
    remember (2 * (length s - length r)) as k eqn:Hk.
    change (valueStep (elements f) (members f) s = Some (v, r) ->
            length r <= length s /\
            valueStep (elements k) (members k) s = Some (v, r)).
    unfold valueStep. destruct (skipWs s) as [|c t] eqn:Hsk1; [done|].
    pose proof (skipWs_length s) as Hs. rewrite Hsk1 in Hs. simpl in Hs.
    destruct (c =? 123)%N.
    { destruct (skipWs t) as [|d t'] eqn:Hsk2; [done|].
    pose proof (skipWs_length t) as Ht. rewrite Hsk2 in Ht. simpl in Ht.
      destruct (d =? 125)%N. { intros [= <- <-]. split; [lia|done]. }
      destruct (members f (d :: t')) as [[ms r0]|] eqn:E; [|done].
      intros [= <- <-]. apply IHm in E as [Hlen E]. simpl in Hlen.
      split; [lia|].
      apply (members_fuel_le _ k) in E; [|simpl in *; lia].
      by rewrite E. }
    destruct (c =? 91)%N.
    { destruct (skipWs t) as [|d t'] eqn:Hsk3; [done|].
    pose proof (skipWs_length t) as Ht. rewrite Hsk3 in Ht. simpl in Ht.
      destruct (d =? 93)%N; [intros [= <- <-]; split; [lia|done]|].
      destruct (elements f (d :: t')) as [[vs r0]|] eqn:E; [|done].
      intros [= <- <-]. apply IHe in E as [Hlen E]. simpl in Hlen.
      split; [lia|].
      apply (elements_fuel_le _ k) in E; [|simpl in *; lia].
      by rewrite E. }
    destruct (c =? 34)%N.
    { destruct (stringBody t) as [[str r0]|] eqn:E; [|done].
      intros [= <- <-]. apply stringBody_length in E. split; [lia|done]. }
    destruct (JsString.startsWith _ _).
    { intros [= <- <-]. split; [|done]. rewrite length_drop. simpl. lia. }
    destruct (JsString.startsWith _ _).
    { intros [= <- <-]. split; [|done]. rewrite length_drop. simpl. lia. }
    destruct (JsString.startsWith _ _).
    { intros [= <- <-]. split; [|done]. rewrite length_drop. simpl. lia. }
    destruct (number (c :: t)) as [[n r0]|] eqn:E; [|done].
    intros [= <- <-]. apply number_length in E. simpl in E. split; [lia|done].
  - intros s vs r.
    replace (2 * (length s - length r) + 2)
      with (S (2 * (length s - length r) + 1)) by lia.
    remember (2 * (length s - length r) + 1) as k eqn:Hk.
    change (elementsStep (value f) (elements f) s = Some (vs, r) ->
            length r <= length s /\
            elementsStep (value k) (elements k) s = Some (vs, r)).
    unfold elementsStep.
    destruct (value f s) as [[v r1]|] eqn:E1; [|done]. simpl.
    apply IHv in E1 as [Hlen1 E1].
    destruct (skipWs r1) as [|c t] eqn:Hskip; [done|].
    pose proof (skipWs_length r1) as Hr1. rewrite Hskip in Hr1. simpl in Hr1.
    destruct (c =? 44)%N eqn:Hc44.
    { destruct (elements f t) as [[vs' r2]|] eqn:E2; [|done].
      intros [= <- <-]. apply IHe in E2 as [Hlen2 E2].
      split; [lia|].
      apply (value_fuel_le _ k) in E1; [|lia].
      apply (elements_fuel_le _ k) in E2; [|lia].
      rewrite E1. simpl. rewrite Hskip, Hc44, E2. reflexivity. }
    destruct (c =? 93)%N eqn:Hc93; [|done].
    intros [= <- <-]. split; [lia|].
    apply (value_fuel_le _ k) in E1; [|lia].
    rewrite E1. simpl. by rewrite Hskip, Hc44, Hc93.
  - intros s ms r.
    replace (2 * (length s - length r) + 2)
      with (S (2 * (length s - length r) + 1)) by lia.
    remember (2 * (length s - length r) + 1) as k eqn:Hk.
    change (membersStep (value f) (members f) s = Some (ms, r) ->
            length r <= length s /\
            membersStep (value k) (members k) s = Some (ms, r)).
    unfold membersStep. destruct (skipWs s) as [|q t] eqn:Hsk5; [done|].
    pose proof (skipWs_length s) as Hs. rewrite Hsk5 in Hs. simpl in Hs.
    destruct (q =? 34)%N; [|done].
    destruct (stringBody t) as [[key r0]|] eqn:Ek; [|done]. simpl.
    apply stringBody_length in Ek.
    destruct (skipWs r0) as [|c t'] eqn:Hsk6; [done|].
    pose proof (skipWs_length r0) as Hr0. rewrite Hsk6 in Hr0. simpl in Hr0.
    destruct (c =? 58)%N; [|done].
    destruct (value f t') as [[v r1]|] eqn:E1; [|done]. simpl.
    apply IHv in E1 as [Hlen1 E1].
    destruct (skipWs r1) as [|c' t''] eqn:Hskip; [done|].
    pose proof (skipWs_length r1) as Hr1. rewrite Hskip in Hr1. simpl in Hr1.
    destruct (c' =? 44)%N eqn:Hc44.
    { destruct (members f t'') as [[ms' r2]|] eqn:E2; [|done].
      intros [= <- <-]. apply IHm in E2 as [Hlen2 E2].
      split; [lia|].
      apply (value_fuel_le _ k) in E1; [|lia].
      apply (members_fuel_le _ k) in E2; [|lia].
      rewrite E1. simpl. rewrite Hskip, Hc44, E2. reflexivity. }
    destruct (c' =? 125)%N eqn:Hc125; [|done].
    intros [= <- <-]. split; [lia|].
    apply (value_fuel_le _ k) in E1; [|lia].
    rewrite E1. simpl. by rewrite Hskip, Hc44, Hc125.
Qed.

(** No text fails to parse for lack of fuel. *)
Lemma parse_fuel (f : nat) (text : jsstring) (v : json) (r : jsstring) :
  value f text = Some (v, r) ->
  value (2 * length text + 2) text = Some (v, r).
Proof.
  intros H. destruct (fuel_bound f) as (Hv & _).
  apply Hv in H as [Hlen H].
  apply (value_fuel_le _ (2 * length text + 2)) in H; [done|lia].
Qed.

(** When [JSON.parse] rejects a text, no amount of fuel parses the whole of
    it. *)
Lemma parse_None (text : jsstring) (f : nat) (v : json) (r : jsstring) :
  parse text = None -> value f text = Some (v, r) -> skipWs r <> [].
Proof.
  unfold parse. intros Hp Hv. rewrite (parse_fuel _ _ _ _ Hv) in Hp.
  by destruct (skipWs r).
Qed.

End JsonFuel.

(** * The built-ins on examples *)

Example replace_first_only :
  JsString.replace (js "a.json.json") (js ".json") (js ".temp.har")
  = js "a.temp.har.json".
Proof. reflexivity. Qed.

Example hostOfRoute_sample : hostOfRoute Sample.route = Sample.host.
Proof. reflexivity. Qed.

Example hostOfRoute_port :
  hostOfRoute (js "http://localhost:3000/app/") = js "localhost:3000".
Proof. reflexivity. Qed.

Example dot_needs_a_character :
  Regex.test assetUrlPattern (js "js") = false /\
  Regex.test assetUrlPattern (js "/data.json") = true.
Proof. split; reflexivity. Qed.

Example parse_base64_body :
  Json.parse (Buffer.toString (Buffer.fromBase64 (js "eyJpdGVtcyI6W119")))
  = Some (JObject [(js "items", JArray [])]).
Proof. reflexivity. Qed.

Example base64_reads_low_bytes :
  Buffer.toString (Buffer.fromBase64 [101; 307; 304]%N) = js "{}".
Proof. reflexivity. Qed.

Example parse_rejects :
  Json.parse (js "user=a&pass=b") = None /\ Json.parse [] = None /\
  Json.parse (js "[1,2,]") = None /\ Json.parse (js "01") = None.
Proof. repeat split; reflexivity. Qed.

Example endpointOfUrl_sample :
  endpointOfUrl (js "https://api.example.org/api/items?page=1")
  = js "/api/items".
Proof. reflexivity. Qed.

(** * Properties of the normalizer *)

Lemma mapArray_Returned {A B} (f : A -> Outcome B) (l : list A) (ys : list B) :
  mapArray f l = Returned ys <-> Forall2 (fun x y => f x = Returned y) l ys.
Proof.
  revert ys; induction l as [|x l IH]; intros ys; simpl.
  - split; [intros [= <-]; constructor | by inversion 1].
  - split.
    + destruct (f x) as [y| |] eqn:Hx; try done.
      destruct (mapArray f l) as [ys'| |] eqn:Hl; try done.
      intros [= <-]. constructor; [done|]. by apply IH.
    + inversion 1 as [|? y ? ys' Hx Hl]; subst. rewrite Hx.
      apply IH in Hl. by rewrite Hl.
Qed.


Lemma toRecord_Returned (e : Entry) (r : RecordRequest) :
  toRecord e = Returned r ->
  rr_url r = endpointOfUrl (url (request e)) /\
  rr_request r = request e /\
  JSON_parse (JsString.orElse (postDataText (request e)) (js "{}"))
    = Returned (requestData r) /\
  JSON_parse (responseString (response e)) = Returned (rr_response r).
Proof.
  unfold toRecord.
  destruct (JSON_parse (JsString.orElse _ _)) as [data| |]; try done.
  destruct (JSON_parse (responseString _)) as [resp| |]; try done.
  by intros [= <-].
Qed.

Lemma toRecord_bad_body (e : Entry) :
  Json.parse (JsString.orElse (postDataText (request e)) (js "{}")) = None ->
  toRecord e = Thrown SyntaxError.
Proof. intros H. unfold toRecord, JSON_parse. by rewrite H. Qed.

Lemma xgrRequests_Returned (host : jsstring) (result : HAR)
    (requests : list RecordRequest) :
  xgrRequests host result = Returned requests <->
  Forall2 (fun e r => toRecord e = Returned r)
    (List.filter (keepEntry host) (entries result)) requests.
Proof. apply mapArray_Returned. Qed.

Lemma records_requests (kept : list Entry) (requests : list RecordRequest) :
  Forall2 (fun e r => toRecord e = Returned r) kept requests ->
  rr_request <$> requests = request <$> kept.
Proof.
  induction 1 as [|e r kept requests Hr _ IH]; [done|].
  apply toRecord_Returned in Hr as (_ & Hreq & _).
  rewrite !fmap_cons. by rewrite Hreq, IH.
Qed.

Lemma filter_elem_of {A} (f : A -> bool) (l : list A) (x : A) :
  x ∈ List.filter f l <-> x ∈ l /\ f x = true.
Proof. rewrite !list_elem_of_In. apply filter_In. Qed.

Lemma filter_sublist {A} (f : A -> bool) (l : list A) :
  sublist (List.filter f l) l.
Proof.
  induction l as [|x l IH]; simpl; [constructor|].
  destruct (f x); by constructor.
Qed.

(** [readHarFile] resolves exactly when the file is a HAR document all of
    whose surviving entries have bodies that parse; it leaves the world as it
    was. *)
Lemma readHarFile_Returned (path host : jsstring) (w w' : World)
    (requests : list RecordRequest) :
  readHarFile path host w = (Returned requests, w') <->
  w' = w /\
  exists result, fs w !! path = Some (HarDocument result) /\
                 xgrRequests host result = Returned requests.
Proof.
  unfold readHarFile. split.
  - destruct (fs w !! path) as [[h| |]|]; simpl; try done.
    destruct (xgrRequests host h) eqn:Hx; try done.
    intros [= <- <-]. eauto.
  - intros (-> & result & -> & Hx). simpl. by rewrite Hx.
Qed.

Lemma readHarFile_records (path host : jsstring) (w w' : World) (result : HAR)
    (requests : list RecordRequest) :
  fs w !! path = Some (HarDocument result) ->
  readHarFile path host w = (Returned requests, w') ->
  Forall2 (fun e r => toRecord e = Returned r)
    (List.filter (keepEntry host) (entries result)) requests.
Proof.
  intros Hf (_ & result' & Hf' & Hx)%readHarFile_Returned.
  rewrite Hf in Hf'. injection Hf' as <-. by apply xgrRequests_Returned.
Qed.

(** * The claims about the normalizer *)

(** C1: for every captured trace and every target host, an entry whose
    request URL has that host (the URL is a scheme, [://], the host, and the
    rest) is rejected by the filter of [readHarFile], and no record of the
    resulting mock set carries its request.  (In [recordHar] the target host
    is [hostOfRoute route], see [hostOfRoute_https].) *)
Theorem same_host_entries_absent (path host : jsstring) (w w' : World)
    (result : HAR) (requests : list RecordRequest) (e : Entry)
    (scheme rest : jsstring) :
  fs w !! path = Some (HarDocument result) ->
  readHarFile path host w = (Returned requests, w') ->
  e ∈ entries result ->
  url (request e) = scheme ++ js "://" ++ host ++ rest ->
  keepEntry host e = false /\ request e ∉ rr_request <$> requests.
Proof.
  intros Hf Hread _ Hurl.
  assert (Hinc : forall e', url (request e') = url (request e) ->
                            keepEntry host e' = false).
  { intros e' He'. unfold keepEntry. rewrite He', Hurl.
    rewrite (app_assoc scheme), includes_app. done. }
  split; [by apply Hinc|].
  pose proof (readHarFile_records _ _ _ _ _ _ Hf Hread) as Hrec.
  rewrite (records_requests _ _ Hrec).
  intros (e' & Hreq & [_ Hkeep]%filter_elem_of)%list_elem_of_fmap.
  rewrite Hinc in Hkeep; [done|]. by rewrite Hreq.
Qed.

Lemma same_host_entries_absent_witness :
  keepEntry Sample.host Sample.page = false /\
  request Sample.page ∉ rr_request <$> [Sample.itemsRecord].
Proof.
  apply (same_host_entries_absent Sample.harPath Sample.host
           (Sample.withTrace [Sample.page; Sample.items])
           (Sample.withTrace [Sample.page; Sample.items])
           {| entries := [Sample.page; Sample.items] |} _ Sample.page
           (js "https") (js "/login")).
  - reflexivity.
  - reflexivity.
  - apply list_elem_of_here.
  - reflexivity.
Defined.

(** C9: normalization preserves the capture order: the requests of the mock
    set are the requests of the surviving entries, in the order of the
    trace. *)
Theorem capture_order_preserved (path host : jsstring) (w w' : World)
    (result : HAR) (requests : list RecordRequest) :
  fs w !! path = Some (HarDocument result) ->
  readHarFile path host w = (Returned requests, w') ->
  rr_request <$> requests
    = request <$> List.filter (keepEntry host) (entries result) /\
  sublist (rr_request <$> requests) (request <$> entries result).
Proof.
  intros Hf Hread.
  pose proof (readHarFile_records _ _ _ _ _ _ Hf Hread) as Hrec.
  rewrite (records_requests _ _ Hrec). split; [done|].
  apply fmap_sublist, filter_sublist.
Qed.

Lemma capture_order_preserved_witness :
  rr_request <$> [Sample.itemsRecord; Sample.orderRecord]
    = request <$> List.filter (keepEntry Sample.host)
                    [Sample.items; Sample.page; Sample.logo; Sample.order] /\
  sublist (rr_request <$> [Sample.itemsRecord; Sample.orderRecord])
    (request <$> [Sample.items; Sample.page; Sample.logo; Sample.order]).
Proof.
  apply (capture_order_preserved Sample.harPath Sample.host
           (Sample.withTrace [Sample.items; Sample.page; Sample.logo; Sample.order])
           (Sample.withTrace [Sample.items; Sample.page; Sample.logo; Sample.order])
           {| entries := [Sample.items; Sample.page; Sample.logo; Sample.order] |}).
  - reflexivity.
  - reflexivity.
Defined.

(** C2, as stated, fails: a stylesheet recognised by its content-type only
    ([text/css], no extension in the URL) passes the filter and gets a record
    in the mock set. *)
Lemma stylesheet_content_type_survives :
  keepEntry Sample.host Sample.stylesheet = true /\
  readHarFile Sample.harPath Sample.host (Sample.withTrace [Sample.stylesheet])
    = (Returned [Sample.stylesheetRecord], Sample.withTrace [Sample.stylesheet]).
Proof. split; reflexivity. Qed.

(** C2, amended: an entry whose URL has one of the extensions png, jpeg,
    webp, jpg, gif, css, js, woff2 after some character, or whose response
    content-type contains [image], [font] or [javascript], is rejected by the
    filter: it is not among the entries of which the mock set holds the
    records. *)
Theorem static_assets_absent (path host : jsstring) (w w' : World)
    (result : HAR) (requests : list RecordRequest) (e : Entry) :
  fs w !! path = Some (HarDocument result) ->
  readHarFile path host w = (Returned requests, w') ->
  e ∈ entries result ->
  (exists ext c pre post,
      ext ∈ assetExtensions /\ Regex.isLineTerminator c = false /\
      url (request e) = pre ++ c :: js ext ++ post) \/
  (exists word pre post,
      word ∈ assetMimeWords /\
      mimeType (content (response e)) = pre ++ js word ++ post) ->
  keepEntry host e = false /\
  (e ∉ List.filter (keepEntry host) (entries result)) /\
  Forall2 (fun e' r => toRecord e' = Returned r)
    (List.filter (keepEntry host) (entries result)) requests.
Proof.
  intros Hf Hread _ Hasset.
  assert (Hkeep : keepEntry host e = false).
  { unfold keepEntry.
    destruct Hasset as [(ext & c & pre & post & Hext & Hc & ->)
                       |(word & pre & post & Hword & ->)].
    - rewrite assetUrlPattern_matches by done. apply andb_false_iff. left.
      apply andb_false_r.
    - rewrite assetMimePattern_matches by done. apply andb_false_r. }
  split; [done|]. split.
  - intros [_ Hk]%filter_elem_of. congruence.
  - by eapply readHarFile_records.
Qed.

Lemma static_assets_absent_witness :
  keepEntry Sample.host Sample.logo = false /\
  (Sample.logo ∉ List.filter (keepEntry Sample.host) [Sample.logo; Sample.items]) /\
  Forall2 (fun e' r => toRecord e' = Returned r)
    (List.filter (keepEntry Sample.host) [Sample.logo; Sample.items])
    [Sample.itemsRecord].
Proof.
  apply (static_assets_absent Sample.harPath Sample.host
           (Sample.withTrace [Sample.logo; Sample.items])
           (Sample.withTrace [Sample.logo; Sample.items])
           {| entries := [Sample.logo; Sample.items] |} _ Sample.logo).
  - reflexivity.
  - reflexivity.
  - apply list_elem_of_here.
  - left. exists "png"%string, 46%N, (js "https://cdn.example.org/logo"), [].
    split; [apply list_elem_of_here|]. split; reflexivity.
Defined.

Lemma parse_empty_object : Json.parse (js "{}") = Some emptyObject.
Proof. reflexivity. Qed.

Lemma orElse_falsy (o : option jsstring) (d : jsstring) :
  JsString.truthy o = false -> JsString.orElse o d = d.
Proof. by destruct o as [[|c t]|]. Qed.

Lemma records_of_member (kept : list Entry) (requests : list RecordRequest)
    (e : Entry) :
  Forall2 (fun e' r => toRecord e' = Returned r) kept requests ->
  e ∈ kept -> exists r, r ∈ requests /\ toRecord e = Returned r.
Proof.
  intros Hrec (i & Hi)%list_elem_of_lookup_1.
  destruct (Forall2_lookup_l _ _ _ _ _ Hrec Hi) as (r & Hr & He).
  exists r. split; [|done]. by eapply list_elem_of_lookup_2.
Qed.

Lemma toRecord_cases (e : Entry) :
  (exists r, toRecord e = Returned r) \/ toRecord e = Thrown SyntaxError.
Proof.
  unfold toRecord, JSON_parse.
  destruct (Json.parse (JsString.orElse _ _)); [|by right].
  destruct (Json.parse (responseString _)); [|by right]. eauto.
Qed.

Lemma mapArray_cases {A B} (f : A -> Outcome B) (l : list A) (err : Error) :
  (forall x, (exists y, f x = Returned y) \/ f x = Thrown err) ->
  (exists ys, mapArray f l = Returned ys) \/ mapArray f l = Thrown err.
Proof.
  intros Hf. induction l as [|x l IH]; simpl; [eauto|].
  destruct (Hf x) as [[y ->] | ->]; [|by right].
  destruct IH as [[ys ->] | ->]; eauto.
Qed.

(** A surviving entry with a body that is not JSON makes the whole
    traversal throw. *)
Lemma xgrRequests_bad_body (host : jsstring) (result : HAR) (e : Entry) :
  e ∈ entries result ->
  keepEntry host e = true ->
  Json.parse (JsString.orElse (postDataText (request e)) (js "{}")) = None ->
  xgrRequests host result = Thrown SyntaxError.
Proof.
  intros He Hkeep Hbad.
  destruct (mapArray_cases toRecord
              (List.filter (keepEntry host) (entries result)) SyntaxError
              toRecord_cases) as [[ys Hys] | Hthrown]; [|done].
  apply xgrRequests_Returned in Hys.
  destruct (records_of_member _ _ e Hys) as (r & _ & Hr);
    [by apply filter_elem_of|].
  by rewrite toRecord_bad_body in Hr.
Qed.

(** C3, as stated, fails: a trace with a form post (a body that is not JSON)
    and an API call gives no mock set at all: [JSON.parse] throws in the
    callback of [fs.readFile], and neither entry gets a record. *)
Lemma form_post_discards_batch :
  keepEntry Sample.host Sample.formPost = true /\
  postDataText (request Sample.formPost) = Some (js "user=a&pass=b") /\
  Json.parse (js "user=a&pass=b") = None /\
  readHarFile Sample.harPath Sample.host
    (Sample.withTrace [Sample.formPost; Sample.items])
  = (Uncaught SyntaxError, Sample.withTrace [Sample.formPost; Sample.items]).
Proof. repeat split; reflexivity. Qed.

(** C3, amended: a surviving entry whose request body text is absent or
    empty gets a record with [requestData] the empty object whenever the
    trace is normalized; a surviving entry whose body text is present and not
    JSON is not tolerated: normalization then produces no mock set. *)
Theorem request_body_default (path host : jsstring) (w : World) (result : HAR)
    (e : Entry) :
  fs w !! path = Some (HarDocument result) ->
  e ∈ entries result ->
  keepEntry host e = true ->
  match postDataText (request e) with
  | Some (c :: t) =>
      Json.parse (c :: t) = None ->
      forall requests w', readHarFile path host w <> (Returned requests, w')
  | _ =>
      forall requests w',
        readHarFile path host w = (Returned requests, w') ->
        exists r, r ∈ requests /\ rr_request r = request e /\
                  requestData r = emptyObject
  end.
Proof.
  intros Hf He Hkeep.
  assert (Hin : e ∈ List.filter (keepEntry host) (entries result))
    by by apply filter_elem_of.
  assert (Hdefault :
    JsString.truthy (postDataText (request e)) = false ->
    forall requests w',
      readHarFile path host w = (Returned requests, w') ->
      exists r, r ∈ requests /\ rr_request r = request e /\
                requestData r = emptyObject).
  { intros Hfalsy requests w' Hread.
    pose proof (readHarFile_records _ _ _ _ _ _ Hf Hread) as Hrec.
    destruct (records_of_member _ _ _ Hrec Hin) as (r & Hr & Hrecord).
    exists r. split; [done|].
    apply toRecord_Returned in Hrecord as (_ & Hreq & Hdata & _).
    split; [done|].
    rewrite orElse_falsy in Hdata by done.
    unfold JSON_parse in Hdata. rewrite parse_empty_object in Hdata.
    by injection Hdata. }
  destruct (postDataText (request e)) as [[|c t]|] eqn:Hbody;
    [by apply Hdefault| |by apply Hdefault].
  intros Hbad requests w' Hread.
  pose proof (readHarFile_records _ _ _ _ _ _ Hf Hread) as Hrec.
  destruct (records_of_member _ _ _ Hrec Hin) as (r & _ & Hrecord).
  rewrite toRecord_bad_body in Hrecord; [done|].
  by rewrite Hbody.
Qed.

Lemma request_body_default_witness :
  (forall requests w',
      readHarFile Sample.harPath Sample.host
        (Sample.withTrace [Sample.order; Sample.items])
      = (Returned requests, w') ->
      exists r, r ∈ requests /\ rr_request r = request Sample.items /\
                requestData r = emptyObject) /\
  (forall requests w',
      readHarFile Sample.harPath Sample.host
        (Sample.withTrace [Sample.formPost; Sample.items])
      <> (Returned requests, w')).
Proof.
  split.
  - apply (request_body_default Sample.harPath Sample.host
             (Sample.withTrace [Sample.order; Sample.items])
             {| entries := [Sample.order; Sample.items] |} Sample.items).
    + reflexivity.
    + apply list_elem_of_further, list_elem_of_here.
    + reflexivity.
  - apply (request_body_default Sample.harPath Sample.host
             (Sample.withTrace [Sample.formPost; Sample.items])
             {| entries := [Sample.formPost; Sample.items] |} Sample.formPost).
    + reflexivity.
    + apply list_elem_of_here.
    + reflexivity.
    + reflexivity.
Defined.

(** * Properties of the capture flow *)

Lemma tick_idle (w : World) : pending w = [] -> tick w = w.
Proof. destruct w; simpl; intros ->; reflexivity. Qed.

(** A poll interval changes the files and the pending writes only. *)
Lemma tick_frame (w : World) :
  console (tick w) = console w /\ launched (tick w) = launched w /\
  readOnly (tick w) = readOnly w /\ browser (tick w) = browser w.
Proof. unfold tick. by destruct (land (pending w) (fs w)). Qed.

Lemma waitForFileExists_present (r : nat) (path : jsstring) (w : World)
    (d : FileData) :
  fs w !! path = Some d -> waitForFileExists r path w = (Returned tt, w).
Proof. destruct r; simpl; by intros ->. Qed.

(** With no write under way, a file that is not there never appears. *)
Lemma waitForFileExists_idle (r : nat) (path : jsstring) (w : World) :
  fs w !! path = None -> pending w = [] ->
  waitForFileExists r path w = (Thrown CaptureArtifactMissing, w).
Proof.
  intros Hf Hp. induction r as [|r IH]; simpl; rewrite Hf; [done|].
  by rewrite tick_idle.
Qed.

Lemma waitForFileExists_cases (r : nat) (path : jsstring) (w : World) :
  exists w',
    (waitForFileExists r path w = (Returned tt, w') \/
     waitForFileExists r path w = (Thrown CaptureArtifactMissing, w')) /\
    console w' = console w /\ launched w' = launched w /\
    readOnly w' = readOnly w /\ browser w' = browser w.
Proof.
  revert w; induction r as [|r IH]; intros w; simpl.
  - destruct (fs w !! path); eauto 10.
  - destruct (fs w !! path); [eauto 10|].
    destruct (IH (tick w)) as (w' & Hw & Hc & Hl & Hr & Hb).
    destruct (tick_frame w) as (Hc' & Hl' & Hr' & Hb').
    exists w'. repeat split; [done|congruence..].
Qed.

(** [readHarFile] only reads. *)
Lemma readHarFile_world (path host : jsstring) (w : World) :
  (readHarFile path host w).2 = w.
Proof.
  unfold readHarFile. destruct (fs w !! path) as [d|]; [|done].
  destruct (parseHar d); [|done..]. by destruct (xgrRequests host _).
Qed.

Lemma readHarFile_Thrown (path host : jsstring) (w w' : World) (e : Error) :
  readHarFile path host w = (Thrown e, w') ->
  e = NoSuchFile path /\ fs w !! path = None.
Proof.
  unfold readHarFile. destruct (fs w !! path) as [d|]; [|by intros [= <- _]].
  destruct (parseHar d); [|done..]. by destruct (xgrRequests host _).
Qed.

(** The capture session either rejects with the error of the first
    Playwright call that rejects, having logged no error and written no
    file, or completes with the context launched on [harPath]. *)
Lemma captureSession_cases (route harPath : jsstring) (logRecording : bool)
    (w : World) :
  (exists c w1,
      captureSession route harPath logRecording w
        = (Thrown (BrowserError c), w1) /\
      rejects (browser w) c = true /\ fs w1 = fs w /\
      pending w1 = pending w /\
      (console w1 = console w \/
       console w1 = console w ++ [Log (js "Recording requests")]) /\
      (launched w1 = launched w \/ launched w1 = launched w ++ [harPath])) \/
  (exists w1,
      captureSession route harPath logRecording w = (Returned tt, w1) /\
      (forall c, rejects (browser w) c = false) /\
      console w1 = console w ++ [Log (js "Recording requests")] /\
      launched w1 = launched w ++ [harPath] /\
      browser w1 = browser w /\ readOnly w1 = readOnly w /\
      match flushDelay (browser w) with
      | Some O =>
          fs w1 = <[harPath := HarDocument (traffic (browser w))]> (fs w) /\
          pending w1 = pending w
      | Some (S n) =>
          fs w1 = fs w /\
          pending w1
            = pending w ++ [(n, harPath, HarDocument (traffic (browser w)))]
      | None => fs w1 = fs w /\ pending w1 = pending w
      end).
Proof.
  unfold captureSession, bind, launchPersistentContext, newPage, goto, pause,
    close, browserCall.
  destruct (rejects (browser w) Launch) eqn:H1;
    [left; eexists _, _; split; [reflexivity|]; eauto 10|].
  cbn.
  destruct (rejects (browser w) NewPage) eqn:H2;
    [left; eexists _, _; split; [reflexivity|]; eauto 10|].
  cbn.
  destruct (rejects (browser w) Goto) eqn:H3;
    [left; eexists _, _; split; [reflexivity|]; eauto 10|].
  destruct logRecording; cbn;
    (destruct (rejects (browser w) Pause) eqn:H4;
       [left; eexists _, _; split; [reflexivity|]; cbn; eauto 10|]);
    cbn;
    (destruct (rejects (browser w) Close) eqn:H5;
       [left; eexists _, _; split; [reflexivity|]; cbn; eauto 10|]);
    right; eexists; (split; [reflexivity|]);
    (split; [by intros []|]);
    destruct (flushDelay (browser w)) as [[|n]|]; cbn; eauto 10.
Qed.

Lemma processRecording_eq (retries : nat) (route filePath harPath : jsstring)
    (w1 : World) :
  processRecording retries route filePath harPath w1 =
  match waitForFileExists retries filePath
          (print (Log (js "Processing recording...")) w1) with
  | (Returned _, w2) =>
      match readHarFile harPath (hostOfRoute route) w2 with
      | (Returned requests, w3) =>
          if decide (filePath ∈ readOnly w3)
          then (Returned requests,
                setFs (delete harPath) (print (LogError PersistFailure) w3))
          else (Returned requests,
                print (Log (js "Recording successfully saved!"))
                  (setFs (delete harPath)
                     (setFs (insert filePath (MockSetDocument requests)) w3)))
      | (Thrown e, w3) =>
          (Returned [], setFs (delete harPath) (print (LogError e) w3))
      | (Uncaught e, w3) => (Uncaught e, w3)
      end
  | (Thrown e, w2) =>
      (Returned [], setFs (delete harPath) (print (LogError e) w2))
  | (Uncaught e, w2) => (Uncaught e, w2)
  end.
Proof.
  unfold processRecording, letVar, tryCatch, bind, lift, assign, readVar,
    console_log, console_error, writeFile, removeFile.
  destruct (waitForFileExists _ _ _) as [[[]| |] w2]; try reflexivity.
  destruct (readHarFile _ _ _) as [[requests| |] w3]; try reflexivity.
  destruct (decide _); reflexivity.
Qed.

Lemma recordHar_eq (retries : nat) (route filePath : jsstring)
    (logRecording : bool) (w : World) :
  recordHar retries route (Some filePath) logRecording w =
  match captureSession route (harPathOf filePath) logRecording w with
  | (Returned _, w1) =>
      processRecording retries route filePath (harPathOf filePath) w1
  | (Thrown e, w1) => (Thrown e, w1)
  | (Uncaught e, w1) => (Uncaught e, w1)
  end.
Proof. reflexivity. Qed.

(** Whenever the processing of the recording comes to an end, the file at
    [harPath] is gone. *)
Lemma processRecording_cleanup (retries : nat) (route filePath harPath : jsstring)
    (w1 w' : World) (requests : list RecordRequest) :
  processRecording retries route filePath harPath w1 = (Returned requests, w') ->
  fs w' !! harPath = None.
Proof.
  rewrite processRecording_eq.
  destruct (waitForFileExists _ _ _) as [[[]| |] w2].
  - destruct (readHarFile _ _ _) as [[rs| |] w3]; [|by intros [= _ <-]; apply lookup_delete_eq|done].
    destruct (decide _); intros [= _ <-]; apply lookup_delete_eq.
  - intros [= _ <-]. apply lookup_delete_eq.
  - done.
Qed.

(** * The claims about the capture flow *)

(** C10: with [filePath] omitted, [recordHar] throws a [TypeError] when it
    derives the transient path: no session is opened, nothing is logged and
    no file is touched, the world is as it was. *)
Theorem missing_filePath_throws (retries : nat) (route : jsstring)
    (logRecording : bool) (w : World) :
  recordHar retries route None logRecording w = (Thrown TypeError, w).
Proof. reflexivity. Qed.

(** C4 (the code departs from the claim): the wait after the session is
    closed polls [filePath], the final mock-set path, not the transient
    [harPath].  In a first capture, where no mock set exists yet, the trace
    is on disk at [harPath] when the session is closed, and still the wait
    fails with [CaptureArtifactMissing]: the run returns the empty mock set
    and deletes the trace. *)
Theorem wait_polls_mock_set_path (retries : nat) (route filePath : jsstring)
    (logRecording : bool) (w : World) :
  (forall c, rejects (browser w) c = false) ->
  flushDelay (browser w) = Some 0%nat ->
  pending w = [] ->
  fs w !! filePath = None ->
  harPathOf filePath <> filePath ->
  exists w1 w',
    captureSession route (harPathOf filePath) logRecording w
      = (Returned tt, w1) /\
    fs w1 !! harPathOf filePath = Some (HarDocument (traffic (browser w))) /\
    recordHar retries route (Some filePath) logRecording w
      = (Returned [], w') /\
    last (console w') = Some (LogError CaptureArtifactMissing) /\
    fs w' !! harPathOf filePath = None.
Proof.
  intros Hok Hflush Hpend Hfile Hne.
  destruct (captureSession_cases route (harPathOf filePath) logRecording w)
    as [(c & w1 & _ & Hrej & _)
       |(w1 & Hs & _ & Hcon & _ & _ & _ & Hfs)];
    [by rewrite Hok in Hrej|].
  rewrite Hflush in Hfs. destruct Hfs as [Hfs Hp1].
  exists w1. eexists. split; [done|]. split.
  { rewrite Hfs. apply lookup_insert_eq. }
  rewrite recordHar_eq, Hs, processRecording_eq.
  rewrite waitForFileExists_idle.
  - split; [reflexivity|]. split.
    + simpl. apply last_snoc.
    + simpl. apply lookup_delete_eq.
  - simpl. rewrite Hfs. by rewrite lookup_insert_ne.
  - simpl. congruence.
Qed.

Lemma wait_polls_mock_set_path_witness :
  exists w1 w',
    captureSession Sample.route (harPathOf Sample.filePath) false
      (Sample.fresh (Sample.observing [Sample.items]))
      = (Returned tt, w1) /\
    fs w1 !! harPathOf Sample.filePath
      = Some (HarDocument
                (traffic (browser (Sample.fresh (Sample.observing [Sample.items]))))) /\
    recordHar 3 Sample.route (Some Sample.filePath) false
      (Sample.fresh (Sample.observing [Sample.items]))
      = (Returned [], w') /\
    last (console w') = Some (LogError CaptureArtifactMissing) /\
    fs w' !! harPathOf Sample.filePath = None.
Proof.
  apply (wait_polls_mock_set_path 3 Sample.route Sample.filePath false
           (Sample.fresh (Sample.observing [Sample.items]))).
  - reflexivity.
  - reflexivity.
  - reflexivity.
  - reflexivity.
  - discriminate.
Defined.

(** C5, as stated, fails: when the launch of the session rejects, the error
    propagates to the caller; nothing is logged and no empty mock set is
    returned. *)
Lemma launch_error_propagates :
  recordHar 3 Sample.route (Some Sample.filePath) false
    (Sample.fresh (Sample.failing Launch))
  = (Thrown (BrowserError Launch), Sample.fresh (Sample.failing Launch)).
Proof. reflexivity. Qed.

(** C5, amended: an error while waiting for the artifact is logged and the
    invocation returns the empty mock set after the transient artifact has
    been deleted; an error of the session itself (launching, opening the
    page, navigating, waiting for the operator, closing) is outside the [try]
    block and propagates to the caller, with no error logged and no file
    touched. *)
Theorem capture_errors (retries : nat) (route filePath : jsstring)
    (logRecording : bool) (w : World) :
  (forall c,
      rejects (browser w) c = true ->
      exists c' w1,
        recordHar retries route (Some filePath) logRecording w
          = (Thrown (BrowserError c'), w1) /\
        rejects (browser w) c' = true /\
        fs w1 = fs w /\
        (forall e, LogError e ∈ console w1 -> LogError e ∈ console w)) /\
  (forall w1 e w2,
      captureSession route (harPathOf filePath) logRecording w
        = (Returned tt, w1) ->
      waitForFileExists retries filePath
        (print (Log (js "Processing recording...")) w1) = (Thrown e, w2) ->
      exists w',
        recordHar retries route (Some filePath) logRecording w
          = (Returned [], w') /\
        last (console w') = Some (LogError e) /\
        fs w' !! harPathOf filePath = None).
Proof.
  split.
  - intros c Hc.
    destruct (captureSession_cases route (harPathOf filePath) logRecording w)
      as [(c' & w1 & Hs & Hrej & Hfs & _ & Hcon & _)
         |(w1 & _ & Hok & _)];
      [|by rewrite Hok in Hc].
    exists c', w1. rewrite recordHar_eq, Hs. repeat split; [done..|].
    intros e. destruct Hcon as [-> | ->]; [done|].
    rewrite elem_of_app, list_elem_of_singleton. by intros [?|?].
  - intros w1 e w2 Hs Hwait. eexists.
    rewrite recordHar_eq, Hs, processRecording_eq, Hwait.
    split; [reflexivity|]. split.
    + simpl. apply last_snoc.
    + simpl. apply lookup_delete_eq.
Qed.

Lemma capture_errors_witness :
  (exists c' w1,
      recordHar 3 Sample.route (Some Sample.filePath) false
        (Sample.fresh (Sample.failing Pause))
        = (Thrown (BrowserError c'), w1) /\
      rejects (browser (Sample.fresh (Sample.failing Pause))) c' = true /\
      fs w1 = fs (Sample.fresh (Sample.failing Pause)) /\
      (forall e, LogError e ∈ console w1 ->
                 LogError e ∈ console (Sample.fresh (Sample.failing Pause)))) /\
  (exists w',
      recordHar 3 Sample.route (Some Sample.filePath) false
        (Sample.fresh (Sample.observing [Sample.items]))
        = (Returned [], w') /\
      last (console w') = Some (LogError CaptureArtifactMissing) /\
      fs w' !! harPathOf Sample.filePath = None).
Proof.
  split.
  - apply (proj1 (capture_errors 3 Sample.route Sample.filePath false
                    (Sample.fresh (Sample.failing Pause))) Pause).
    vm_compute. reflexivity.
  - apply (proj2 (capture_errors 3 Sample.route Sample.filePath false
                    (Sample.fresh (Sample.observing [Sample.items])))
             (captureSession Sample.route (harPathOf Sample.filePath) false
                (Sample.fresh (Sample.observing [Sample.items]))).2
             CaptureArtifactMissing
             (print (Log (js "Processing recording..."))
                (captureSession Sample.route (harPathOf Sample.filePath) false
                   (Sample.fresh (Sample.observing [Sample.items]))).2)).
    + vm_compute. reflexivity.
    + vm_compute. reflexivity.
Defined.

(** C6 (the code departs from the claim): both the [try] and the [catch]
    block of [recordHar] delete the transient artifact, but a normalization
    that fails inside the callback of [fs.readFile] reaches neither.  When
    the wait has succeeded and the trace at [harPath] holds a surviving entry
    whose request body is not JSON, [JSON.parse] throws in that callback: the
    promise of [readHarFile] never settles, the run ends there with the
    exception uncaught, and the trace is still on disk. *)
Theorem uncaught_parse_error_skips_cleanup (retries : nat)
    (route filePath : jsstring) (logRecording : bool) (w w1 w2 : World)
    (result : HAR) (e : Entry) :
  captureSession route (harPathOf filePath) logRecording w
    = (Returned tt, w1) ->
  waitForFileExists retries filePath
    (print (Log (js "Processing recording...")) w1) = (Returned tt, w2) ->
  fs w2 !! harPathOf filePath = Some (HarDocument result) ->
  e ∈ entries result ->
  keepEntry (hostOfRoute route) e = true ->
  Json.parse (JsString.orElse (postDataText (request e)) (js "{}")) = None ->
  exists w',
    recordHar retries route (Some filePath) logRecording w
      = (Uncaught SyntaxError, w') /\
    fs w' !! harPathOf filePath = Some (HarDocument result).
Proof.
  intros Hsession Hwait Hfile He Hkeep Hbad. exists w2. split; [|done].
  rewrite recordHar_eq, Hsession, processRecording_eq, Hwait.
  unfold readHarFile. rewrite Hfile. simpl.
  by rewrite (xgrRequests_bad_body _ _ e).
Qed.

Lemma uncaught_parse_error_skips_cleanup_witness :
  exists w',
    recordHar 3 Sample.route (Some Sample.filePath) false
      (Sample.stale (Sample.observing [Sample.formPost; Sample.items]))
      = (Uncaught SyntaxError, w') /\
    fs w' !! harPathOf Sample.filePath
      = Some (HarDocument {| entries := [Sample.formPost; Sample.items] |}).
Proof.
  apply (uncaught_parse_error_skips_cleanup 3 Sample.route Sample.filePath
           false
           (Sample.stale (Sample.observing [Sample.formPost; Sample.items]))
           (captureSession Sample.route (harPathOf Sample.filePath) false
              (Sample.stale
                 (Sample.observing [Sample.formPost; Sample.items]))).2
           (print (Log (js "Processing recording..."))
              (captureSession Sample.route (harPathOf Sample.filePath) false
                 (Sample.stale
                    (Sample.observing [Sample.formPost; Sample.items]))).2)
           {| entries := [Sample.formPost; Sample.items] |} Sample.formPost).
  - vm_compute. reflexivity.
  - vm_compute. reflexivity.
  - vm_compute. reflexivity.
  - apply list_elem_of_here.
  - vm_compute. reflexivity.
  - vm_compute. reflexivity.
Defined.

Lemma JSON_parse_Returned (t : jsstring) (v : json) :
  JSON_parse t = Returned v -> Json.parse t = Some v.
Proof. unfold JSON_parse. destruct (Json.parse t); by intros [= <-]. Qed.



Lemma afterScheme_app (scheme u : jsstring) :
  58%N ∉ scheme ->
  Endpoint.afterScheme (scheme ++ js "://" ++ u) = Some u.
Proof.
  induction scheme as [|c scheme IH]; intros Hc; [done|].
  apply not_elem_of_cons in Hc as [Hc Hs].
  change (Endpoint.afterScheme ((c :: scheme) ++ js "://" ++ u))
    with (if (58 =? c)%N && JsString.startsWith (scheme ++ js "://" ++ u) (js "//")
          then Some (drop 3 ((c :: scheme) ++ js "://" ++ u))
          else Endpoint.afterScheme (scheme ++ js "://" ++ u)).
  destruct (N.eqb_spec 58 c) as [Heq|_]; [done|]. by apply IH.
Qed.

Lemma fromSlash_app (host u : jsstring) :
  47%N ∉ host -> Endpoint.fromSlash (host ++ 47%N :: u) = 47%N :: u.
Proof.
  induction host as [|c host IH]; intros Hc; [done|].
  apply not_elem_of_cons in Hc as [Hc Hs]. simpl.
  destruct (N.eqb_spec c 47) as [->|_]; [done|]. by apply IH.
Qed.

Lemma beforeQuery_app (path query : jsstring) :
  63%N ∉ path -> 35%N ∉ path ->
  Endpoint.beforeQuery (path ++ 63%N :: query) = path.
Proof.
  induction path as [|c path IH]; intros Hq Hh; [done|].
  apply not_elem_of_cons in Hq as [Hq Hq'].
  apply not_elem_of_cons in Hh as [Hh Hh']. simpl.
  destruct (N.eqb_spec c 63) as [->|_]; [done|].
  destruct (N.eqb_spec c 35) as [->|_]; [done|].
  simpl. by rewrite IH.
Qed.

(** [endpointOfUrl] gives the path component: for a URL made of a scheme
    without colon, [://], a host without solidus, a path that starts with a
    solidus and holds neither question mark nor hash, and a query, it is the
    path. *)
Lemma endpointOfUrl_path (scheme host path query : jsstring) :
  58%N ∉ scheme -> 47%N ∉ host -> 63%N ∉ path -> 35%N ∉ path ->
  endpointOfUrl (scheme ++ js "://" ++ host ++ (47%N :: path) ++ 63%N :: query)
  = 47%N :: path.
Proof.
  intros Hs Hh Hq Hf. unfold endpointOfUrl.
  rewrite afterScheme_app by done. simpl.
  rewrite fromSlash_app by done.
  change (47%N :: path ++ 63%N :: query) with ((47%N :: path) ++ 63%N :: query).
  apply beforeQuery_app; rewrite not_elem_of_cons; by split.
Qed.




(** C8, as stated, fails: for a mock-set path without [.json] the
    replacement of line 55 changes nothing, the session is launched with the
    final mock-set path as its recording path, and closing it writes the raw
    trace there. *)
Lemma transient_path_may_be_final :
  let filePath := js "tests/login.mocks" in
  let session :=
    captureSession Sample.route (harPathOf filePath) false
      (Sample.fresh (Sample.observing [Sample.items])) in
  harPathOf filePath = filePath /\
  launched session.2 = [filePath] /\
  fs session.2 !! filePath = Some (HarDocument {| entries := [Sample.items] |}).
Proof. vm_compute. repeat split; reflexivity. Qed.

Lemma processRecording_launched (retries : nat) (route filePath harPath : jsstring)
    (w1 : World) :
  launched (processRecording retries route filePath harPath w1).2 = launched w1.
Proof.
  rewrite processRecording_eq.
  destruct (waitForFileExists_cases retries filePath
              (print (Log (js "Processing recording...")) w1))
    as (w2 & [-> | ->] & _ & Hl & _); [|done].
  pose proof (readHarFile_world harPath (hostOfRoute route) w2) as Hw.
  destruct (readHarFile _ _ w2) as [[rs| |] w3]; simpl in Hw; subst w3;
    [|done..].
  by destruct (decide _).
Qed.

(** Without [.json] in the mock-set path, line 55 derives the mock-set path
    itself. *)
Lemma harPathOf_without_json (filePath : jsstring) :
  JsString.includes filePath (js ".json") = false ->
  harPathOf filePath = filePath.
Proof. apply replace_absent. Qed.

(** C8, amended: for every invocation whose mock-set path contains [.json],
    the transient path differs from the mock-set path, and the only context
    launched in the run records to the transient path. *)
Theorem transient_path_distinct (retries : nat) (route filePath : jsstring)
    (logRecording : bool) (w : World) :
  JsString.includes filePath (js ".json") = true ->
  harPathOf filePath <> filePath /\
  (launched (recordHar retries route (Some filePath) logRecording w).2
     = launched w \/
   launched (recordHar retries route (Some filePath) logRecording w).2
     = launched w ++ [harPathOf filePath]).
Proof.
  intros Hjson. split.
  - intros Heq.
    pose proof (replace_length filePath (js ".json") (js ".temp.har") Hjson)
      as Hlen.
    unfold harPathOf in Heq. rewrite Heq in Hlen.
    change (length (js ".json")) with 5%nat in Hlen.
    change (length (js ".temp.har")) with 9%nat in Hlen. lia.
  - rewrite recordHar_eq.
    destruct (captureSession_cases route (harPathOf filePath) logRecording w)
      as [(c & w1 & -> & _ & _ & _ & _ & Hl)|(w1 & -> & _ & _ & Hl & _)].
    + done.
    + rewrite processRecording_launched. by right.
Qed.

Lemma transient_path_distinct_witness :
  harPathOf Sample.filePath <> Sample.filePath /\
  (launched (recordHar 3 Sample.route (Some Sample.filePath) false
               (Sample.fresh (Sample.observing [Sample.items]))).2
     = launched (Sample.fresh (Sample.observing [Sample.items])) \/
   launched (recordHar 3 Sample.route (Some Sample.filePath) false
               (Sample.fresh (Sample.observing [Sample.items]))).2
     = launched (Sample.fresh (Sample.observing [Sample.items]))
       ++ [harPathOf Sample.filePath]).
Proof.
  apply (transient_path_distinct 3 Sample.route Sample.filePath false
           (Sample.fresh (Sample.observing [Sample.items]))).
  vm_compute. reflexivity.
Defined.

(** * Further properties of the recorder *)

Section BuiltinsSpec.

Import JsString.

Lemma startsWith_spec (s p : jsstring) :
  startsWith s p = true <-> exists post, s = p ++ post.
Proof.
  split.
  - revert s; induction p as [|a p IH]; intros s; [by exists s|].
    destruct s as [|b s]; [done|]. simpl.
    intros [Hab Hs]%andb_true_iff. apply N.eqb_eq in Hab as ->.
    destruct (IH _ Hs) as [post ->]. by exists post.
  - intros [post ->]. apply startsWith_app.
Qed.

Lemma includes_spec (s p : jsstring) :
  includes s p = true <-> exists pre post, s = pre ++ p ++ post.
Proof.
  split.
  - induction s as [|c s IH]; rewrite includes_unfold.
    + rewrite orb_false_r. intros [post ->]%startsWith_spec. by exists [], post.
    + intros [[post ->]%startsWith_spec | Hs]%orb_true_iff; [by exists [], post|].
      destruct (IH Hs) as (pre & post & ->). by exists (c :: pre), post.
  - intros (pre & post & ->). apply includes_app.
Qed.

Lemma matchesAt_lit_spec (w s : jsstring) :
  Regex.matchesAt (Regex.Chr <$> w) s = true <-> exists post, s = w ++ post.
Proof.
  split.
  - revert s; induction w as [|a w IH]; intros s; [by exists s|].
    destruct s as [|b s]; [done|]. simpl.
    intros [Hab Hs]%andb_true_iff. apply N.eqb_eq in Hab as ->.
    destruct (IH _ Hs) as [post ->]. by exists post.
  - intros [post ->]. apply matchesAt_lit.
Qed.

Lemma test_spec (alts : list (list Regex.atom)) (s : jsstring) :
  Regex.test alts s = true <->
  exists pre rest p, s = pre ++ rest /\ p ∈ alts /\ Regex.matchesAt p rest = true.
Proof.
  split.
  - induction s as [|c s IH]; rewrite test_unfold.
    + rewrite orb_false_r. intros (p & Hp & Hm)%existsb_exists.
      exists [], [], p. by rewrite <- list_elem_of_In in Hp.
    + intros [(p & Hp & Hm)%existsb_exists | Hs]%orb_true_iff.
      * exists [], (c :: s), p. by rewrite <- list_elem_of_In in Hp.
      * destruct (IH Hs) as (pre & rest & p & -> & Hp & Hm).
        by exists (c :: pre), rest, p.
  - intros (pre & rest & p & -> & Hp & Hm). by eapply test_at.
Qed.

End BuiltinsSpec.

(** X1: an entry is rejected by the filter exactly when its URL contains the
    host text somewhere, or contains one of the eight extensions after a
    character that is not a line terminator, or its response content-type
    contains [image], [font] or [javascript]; every other entry survives. *)
Theorem keepEntry_false_iff (host : jsstring) (e : Entry) :
  keepEntry host e = false <->
  (exists pre post, url (request e) = pre ++ host ++ post) \/
  (exists ext c pre post,
      ext ∈ assetExtensions /\ Regex.isLineTerminator c = false /\
      url (request e) = pre ++ c :: js ext ++ post) \/
  (exists word pre post,
      word ∈ assetMimeWords /\
      mimeType (content (response e)) = pre ++ js word ++ post).
Proof.
  unfold keepEntry.
  rewrite !andb_false_iff, !negb_false_iff, includes_spec, !test_spec.
  split.
  - intros [[H | (pre & rest & p & Hurl & Hp & Hm)]
           | (pre & rest & p & Hmime & Hp & Hm)].
    + by left.
    + right; left. unfold assetUrlPattern in Hp.
      apply list_elem_of_fmap in Hp as (ext & -> & Hext).
      destruct rest as [|c rest]; [done|].
      cbn [Regex.dot Regex.matchesAt Regex.matchesAtom] in Hm.
      apply andb_true_iff in Hm as [Hc Hm]. apply negb_true_iff in Hc.
      apply matchesAt_lit_spec in Hm as [post ->].
      by exists ext, c, pre, post.
    + right; right. unfold assetMimePattern in Hp.
      apply list_elem_of_fmap in Hp as (word & -> & Hword).
      apply matchesAt_lit_spec in Hm as [post ->].
      by exists word, pre, post.
  - intros [H | [(ext & c & pre & post & Hext & Hc & Hurl)
                |(word & pre & post & Hword & Hmime)]].
    + left; by left.
    + left; right. exists pre, (c :: js ext ++ post), (Regex.dot ext).
      split; [done|]. split; [by apply list_elem_of_fmap_2|].
      cbn [Regex.dot Regex.matchesAt Regex.matchesAtom].
      rewrite Hc. apply matchesAt_lit.
    + right. exists pre, (js word ++ post), (Regex.lit word).
      split; [done|]. split; [by apply list_elem_of_fmap_2|].
      apply matchesAt_lit.
Qed.

Section Paths.

Import JsString.

Lemma split_first_no_sep (s : jsstring) (sep : N) :
  sep ∉ first (split s sep).
Proof.
  unfold first. induction s as [|c s IH]; simpl; [apply not_elem_of_nil|].
  destruct (N.eqb_spec c sep) as [->|Hc]; [apply not_elem_of_nil|].
  destruct (split s sep) as [|h r]; simpl in *.
  - apply not_elem_of_cons. split; [done|apply not_elem_of_nil].
  - apply not_elem_of_cons. by split.
Qed.

(** X3: the host that [recordHar] derives from the route never contains a
    solidus. *)
Theorem hostOfRoute_no_solidus (route : jsstring) : 47%N ∉ hostOfRoute route.
Proof. apply split_first_no_sep. Qed.

(** A pattern that begins with a character other than the solidus does not
    match at a solidus. *)
Lemma replace_at_solidus (rest pat rep : jsstring) (a : N) :
  a <> 47%N ->
  replace (47%N :: rest) (a :: pat) rep = 47%N :: replace rest (a :: pat) rep.
Proof.
  intros Ha. cbn [replace startsWith].
  destruct (N.eqb_spec a 47) as [?|_]; [done|]. reflexivity.
Qed.

(** The general form of [replace_http_host]. *)
Lemma replace_before_solidus (h rest p q rep : jsstring) :
  47%N ∉ p -> includes h p = false ->
  replace (h ++ 47%N :: rest) (p ++ q) rep
  = h ++ replace (47%N :: rest) (p ++ q) rep.
Proof.
  intros Hp. induction h as [|c h IH]; intros Hinc; [done|].
  rewrite includes_unfold in Hinc. apply orb_false_iff in Hinc as [Hs Hinc].
  change ((c :: h) ++ 47%N :: rest) with (c :: (h ++ 47%N :: rest)).
  cbn [replace].
  destruct (startsWith (c :: h ++ 47%N :: rest) (p ++ q)) eqn:E.
  - apply (startsWith_before_slash (c :: h) rest p q) in E; [congruence|done].
  - simpl. by rewrite IH.
Qed.

Lemma not_elem_of_js (c : N) (w : string) :
  bool_decide (c ∉ js w) = true -> c ∉ js w.
Proof. apply bool_decide_eq_true_1. Qed.

(** X4: for a route [https://host/...] or [http://host/...], where the host
    text holds no solidus and neither [http:] nor [https:], the host that
    [recordHar] derives is that host text, port included. *)
Theorem hostOfRoute_host (scheme h rest : jsstring) :
  scheme = js "https://" \/ scheme = js "http://" ->
  47%N ∉ h ->
  includes h (js "http:") = false ->
  includes h (js "https:") = false ->
  hostOfRoute (scheme ++ h ++ 47%N :: rest) = h.
Proof.
  intros [-> | ->] Hh Hhttp Hhttps.
  - by apply hostOfRoute_https.
  - unfold hostOfRoute.
    change (js "http://" ++ h ++ 47%N :: rest)
      with (js "http:" ++ 47%N :: 47%N :: h ++ 47%N :: rest).
    rewrite (replace_before_solidus (js "http:") _ (js "https:") (js "//"));
      [|by apply not_elem_of_js|done].
    change (js "https:" ++ js "//") with (104%N :: js "ttps://").
    rewrite !replace_at_solidus by done.
    change (104%N :: js "ttps://") with (js "https:" ++ js "//").
    rewrite (replace_before_solidus h _ (js "https:") (js "//"));
      [|by apply not_elem_of_js|done].
    change (js "https:" ++ js "//") with (104%N :: js "ttps://").
    rewrite replace_at_solidus by done.
    change (replace (js "http:" ++ 47%N :: 47%N :: h ++ 47%N :: replace rest (104%N :: js "ttps://") [])
              (js "http://") [])
      with (h ++ 47%N :: replace rest (104%N :: js "ttps://") []).
    by apply split_first.
Qed.

Lemma startsWith_long (x y p : jsstring) :
  length p <= length x -> startsWith (x ++ y) p = startsWith x p.
Proof.
  revert x; induction p as [|a p IH]; intros x Hlen; [done|].
  destruct x as [|b x]; simpl in *; [lia|].
  rewrite IH by lia. done.
Qed.

Lemma replace_startsWith (s pat rep : jsstring) :
  startsWith s pat = true -> replace s pat rep = rep ++ drop (length pat) s.
Proof. intros H. destruct s; cbn [replace]; by rewrite H. Qed.

(** The first occurrence of the pattern is the one that is replaced. *)
Lemma replace_first_occurrence (pre pat post rep : jsstring) (a : N) :
  includes (pre ++ removelast (pat ++ [a])) (pat ++ [a]) = false ->
  replace (pre ++ (pat ++ [a]) ++ post) (pat ++ [a]) rep = pre ++ rep ++ post.
Proof.
  induction pre as [|c pre IH]; intros Hinc.
  - simpl app at 1. rewrite replace_startsWith by apply startsWith_app.
    by rewrite drop_app_length.
  - rewrite includes_unfold in Hinc. apply orb_false_iff in Hinc as [Hs Hinc].
    change ((c :: pre) ++ (pat ++ [a]) ++ post)
      with (c :: (pre ++ (pat ++ [a]) ++ post)).
    cbn [replace].
    assert (Hs' : startsWith (c :: pre ++ (pat ++ [a]) ++ post) (pat ++ [a]) = false).
    { rewrite <- Hs.
      change (c :: pre ++ (pat ++ [a]) ++ post)
        with ((c :: pre) ++ (pat ++ [a]) ++ post).
      rewrite removelast_last.
      replace ((c :: pre) ++ (pat ++ [a]) ++ post)
        with (((c :: pre) ++ pat) ++ a :: post)
        by (by rewrite <- !app_assoc).
      apply startsWith_long. rewrite !length_app. simpl. lia. }
    rewrite Hs'. simpl. f_equal. by apply IH.
Qed.

End Paths.

(** X5: when [.json] first occurs in the mock-set path at the end of [pre],
    the transient path is the mock-set path with that [.json] replaced by
    [.temp.har]; what precedes and follows it is kept. *)
Theorem harPathOf_swaps_extension (pre post : jsstring) :
  JsString.includes (pre ++ js ".jso") (js ".json") = false ->
  harPathOf (pre ++ js ".json" ++ post) = pre ++ js ".temp.har" ++ post.
Proof.
  intros Hinc. unfold harPathOf.
  change (js ".json") with (js ".jso" ++ [110%N]).
  apply replace_first_occurrence. by rewrite removelast_last.
Qed.

Lemma harPathOf_swaps_extension_witness :
  harPathOf (js "tests/login.spec.mocks" ++ js ".json" ++ [])
  = js "tests/login.spec.mocks" ++ js ".temp.har" ++ [].
Proof.
  apply (harPathOf_swaps_extension (js "tests/login.spec.mocks") []).
  vm_compute. reflexivity.
Defined.

(** * Normalizer *)

Lemma mapArray_app {A B} (f : A -> Outcome B) (l1 l2 : list A) :
  mapArray f (l1 ++ l2) =
  match mapArray f l1 with
  | Returned ys1 =>
      match mapArray f l2 with
      | Returned ys2 => Returned (ys1 ++ ys2)
      | Thrown e => Thrown e
      | Uncaught e => Uncaught e
      end
  | Thrown e => Thrown e
  | Uncaught e => Uncaught e
  end.
Proof.
  induction l1 as [|x l1 IH]; simpl.
  - by destruct (mapArray f l2).
  - destruct (f x); [|done..]. rewrite IH.
    destruct (mapArray f l1); [|done..]. by destruct (mapArray f l2).
Qed.

(** X13: normalizing the concatenation of two traces gives the
    concatenation of their mock sets, and fails as soon as one of them
    fails. *)
Theorem xgrRequests_app (host : jsstring) (es1 es2 : list Entry) :
  xgrRequests host {| entries := es1 ++ es2 |} =
  match xgrRequests host {| entries := es1 |} with
  | Returned rs1 =>
      match xgrRequests host {| entries := es2 |} with
      | Returned rs2 => Returned (rs1 ++ rs2)
      | Thrown e => Thrown e
      | Uncaught e => Uncaught e
      end
  | Thrown e => Thrown e
  | Uncaught e => Uncaught e
  end.
Proof. unfold xgrRequests. simpl. rewrite List.filter_app. apply mapArray_app. Qed.

(** X12: an entry that the filter rejects has no effect on normalization:
    its bodies are never parsed, whatever they hold. *)
Theorem excluded_entry_is_harmless (host : jsstring) (es1 es2 : list Entry)
    (e : Entry) :
  keepEntry host e = false ->
  xgrRequests host {| entries := es1 ++ e :: es2 |}
  = xgrRequests host {| entries := es1 ++ es2 |}.
Proof.
  intros He. unfold xgrRequests. simpl.
  rewrite !List.filter_app. simpl. by rewrite He.
Qed.

(** X11: [readHarFile] resolves on a HAR document exactly when, for every
    entry that survives the filter, the request body text (or [{}] in its
    absence) and the decoded response body are both valid JSON. *)
Theorem readHarFile_resolves_iff (path host : jsstring) (w : World)
    (result : HAR) :
  fs w !! path = Some (HarDocument result) ->
  (exists requests, readHarFile path host w = (Returned requests, w)) <->
  (forall e, e ∈ entries result -> keepEntry host e = true ->
     is_Some (Json.parse (JsString.orElse (postDataText (request e)) (js "{}"))) /\
     is_Some (Json.parse (responseString (response e)))).
Proof.
  intros Hf. split.
  - intros [requests Hread] e He Hkeep.
    pose proof (readHarFile_records _ _ _ _ _ _ Hf Hread) as Hrec.
    destruct (records_of_member _ _ e Hrec) as (r & _ & Hr);
      [by apply filter_elem_of|].
    apply toRecord_Returned in Hr as (_ & _ & Hdata & Hresp).
    apply JSON_parse_Returned in Hdata, Hresp. by rewrite Hdata, Hresp.
  - intros Hall.
    assert (Hx : exists requests, xgrRequests host result = Returned requests).
    { unfold xgrRequests.
      assert (Hkept : forall e, e ∈ List.filter (keepEntry host) (entries result) ->
                exists r, toRecord e = Returned r).
      { intros e [He Hkeep]%filter_elem_of.
        destruct (Hall e He Hkeep) as [[d Hd] [r Hr]].
        unfold toRecord, JSON_parse. rewrite Hd, Hr. eauto. }
      induction (List.filter (keepEntry host) (entries result)) as [|e l IH];
        simpl; [eauto|].
      destruct (Hkept e) as [r ->]; [apply list_elem_of_here|].
      destruct IH as [rs ->]; [|eauto].
      intros e' He'. apply Hkept. by apply list_elem_of_further. }
    destruct Hx as [requests Hx]. exists requests.
    apply readHarFile_Returned. eauto.
Qed.

(** Where a returned mock set comes from. *)
Lemma processRecording_Returned (retries : nat) (route filePath harPath : jsstring)
    (w1 w' : World) (requests : list RecordRequest) :
  processRecording retries route filePath harPath w1 = (Returned requests, w') ->
  requests = [] \/
  exists w2, readHarFile harPath (hostOfRoute route) w2 = (Returned requests, w2).
Proof.
  rewrite processRecording_eq.
  destruct (waitForFileExists _ _ _) as [[[]| |] w2]; [|intros [= <- _]; by left|done].
  destruct (readHarFile _ _ w2) as [[rs| |] w3] eqn:Hread;
    [|intros [= <- _]; by left|done].
  pose proof (readHarFile_world harPath (hostOfRoute route) w2) as Hw.
  rewrite Hread in Hw. simpl in Hw. subst w3.
  destruct (decide _); intros [= <- _]; right; eauto.
Qed.

Lemma processRecording_not_Thrown (retries : nat) (route filePath harPath : jsstring)
    (w1 w' : World) (e : Error) :
  processRecording retries route filePath harPath w1 <> (Thrown e, w').
Proof.
  rewrite processRecording_eq.
  destruct (waitForFileExists _ _ _) as [[[]| |] w2]; [|done..].
  destruct (readHarFile _ _ w2) as [[rs| |] w3]; [|done..].
  by destruct (decide _).
Qed.

(** X6: [recordHar] called with a mock-set path rejects only with the error
    of a Playwright call of the session that rejected, and then no file has
    been touched; after the session is closed it never rejects. *)
Theorem recordHar_rejects_only_session_errors (retries : nat)
    (route filePath : jsstring) (logRecording : bool) (w w' : World)
    (e : Error) :
  recordHar retries route (Some filePath) logRecording w = (Thrown e, w') ->
  exists c, e = BrowserError c /\ rejects (browser w) c = true /\
            fs w' = fs w.
Proof.
  rewrite recordHar_eq.
  destruct (captureSession_cases route (harPathOf filePath) logRecording w)
    as [(c & w1 & -> & Hrej & Hfs & _)|(w1 & -> & _)].
  - intros [= <- <-]. eauto.
  - intros H. by apply processRecording_not_Thrown in H.
Qed.

Lemma recordHar_rejects_only_session_errors_witness :
  exists c, BrowserError Goto = BrowserError c /\
            rejects (browser (Sample.fresh (Sample.failing Goto))) c = true /\
            fs (recordHar 3 Sample.route (Some Sample.filePath) true
                  (Sample.fresh (Sample.failing Goto))).2
            = fs (Sample.fresh (Sample.failing Goto)).
Proof.
  apply (recordHar_rejects_only_session_errors 3 Sample.route Sample.filePath
           true (Sample.fresh (Sample.failing Goto))).
  vm_compute. reflexivity.
Defined.

Lemma recordHar_cleanup (retries : nat) (route filePath : jsstring)
    (logRecording : bool) (w w' : World) (requests : list RecordRequest) :
  recordHar retries route (Some filePath) logRecording w
    = (Returned requests, w') ->
  fs w' !! harPathOf filePath = None.
Proof.
  rewrite recordHar_eq.
  destruct (captureSession _ _ _ w) as [[[]| |] w1]; [|done..].
  apply processRecording_cleanup.
Qed.

(** X14: whenever [recordHar] returns, no file is left at the transient
    path. *)
Theorem returned_run_leaves_no_trace (retries : nat)
    (route filePath : jsstring) (logRecording : bool) (w w' : World)
    (requests : list RecordRequest) :
  recordHar retries route (Some filePath) logRecording w
    = (Returned requests, w') ->
  fs w' !! harPathOf filePath = None.
Proof. apply recordHar_cleanup. Qed.

Lemma returned_run_leaves_no_trace_witness :
  fs (recordHar 3 Sample.route (Some Sample.filePath) false
        (Sample.stale (Sample.observing [Sample.page; Sample.items]))).2
    !! harPathOf Sample.filePath = None.
Proof.
  apply (returned_run_leaves_no_trace 3 Sample.route Sample.filePath false
           (Sample.stale (Sample.observing [Sample.page; Sample.items])) _
           [Sample.itemsRecord]).
  vm_compute. reflexivity.
Defined.

(** X9: for a mock-set path without [.json], the transient path is the
    mock-set path itself, so that whenever [recordHar] returns, the mock-set
    file does not exist: what was persisted has been removed again. *)
Theorem mock_set_deleted_without_json (retries : nat)
    (route filePath : jsstring) (logRecording : bool) (w w' : World)
    (requests : list RecordRequest) :
  JsString.includes filePath (js ".json") = false ->
  recordHar retries route (Some filePath) logRecording w
    = (Returned requests, w') ->
  fs w' !! filePath = None.
Proof.
  intros Hjson Hrun. rewrite <- (harPathOf_without_json filePath Hjson) at 1.
  by eapply recordHar_cleanup.
Qed.

Lemma mock_set_deleted_without_json_witness :
  fs (recordHar 3 Sample.route (Some (js "tests/login.mocks")) false
        (Sample.fresh (Sample.observing [Sample.items]))).2
    !! js "tests/login.mocks" = None.
Proof.
  apply (mock_set_deleted_without_json 3 Sample.route (js "tests/login.mocks")
           false (Sample.fresh (Sample.observing [Sample.items])) _
           [Sample.itemsRecord]).
  - vm_compute. reflexivity.
  - vm_compute. reflexivity.
Defined.

Lemma records_source (kept : list Entry) (requests : list RecordRequest)
    (r : RecordRequest) :
  Forall2 (fun e r => toRecord e = Returned r) kept requests ->
  r ∈ requests -> exists e, e ∈ kept /\ toRecord e = Returned r.
Proof.
  intros Hrec (i & Hi)%list_elem_of_lookup_1.
  destruct (Forall2_lookup_r _ _ _ _ _ Hrec Hi) as (e & He & Hr).
  exists e. split; [|done]. by eapply list_elem_of_lookup_2.
Qed.

(** X10: no record that [recordHar] returns has a request URL that contains
    the host of the route or matches the pattern of the asset extensions. *)
Theorem returned_records_pass_filter (retries : nat)
    (route filePath : jsstring) (logRecording : bool) (w w' : World)
    (requests : list RecordRequest) (r : RecordRequest) :
  recordHar retries route (Some filePath) logRecording w
    = (Returned requests, w') ->
  r ∈ requests ->
  JsString.includes (url (rr_request r)) (hostOfRoute route) = false /\
  Regex.test assetUrlPattern (url (rr_request r)) = false.
Proof.
  rewrite recordHar_eq. intros Hrun Hr.
  destruct (captureSession _ _ _ w) as [[[]| |] w1]; [|done..].
  apply processRecording_Returned in Hrun as [-> | (w2 & Hread)];
    [by apply elem_of_nil in Hr|].
  pose proof Hread as (_ & result & Hf & _)%readHarFile_Returned.
  pose proof (readHarFile_records _ _ _ _ _ _ Hf Hread) as Hrec.
  destruct (records_source _ _ r Hrec Hr) as (e & [_ Hkeep]%filter_elem_of & He).
  apply toRecord_Returned in He as (_ & -> & _).
  unfold keepEntry in Hkeep.
  apply andb_true_iff in Hkeep as [[H1 H2]%andb_true_iff _].
  by apply negb_true_iff in H1, H2.
Qed.

Lemma returned_records_pass_filter_witness :
  JsString.includes (url (rr_request Sample.itemsRecord))
    (hostOfRoute Sample.route) = false /\
  Regex.test assetUrlPattern (url (rr_request Sample.itemsRecord)) = false.
Proof.
  apply (returned_records_pass_filter 3 Sample.route Sample.filePath false
           (Sample.stale (Sample.observing [Sample.page; Sample.items]))
           (recordHar 3 Sample.route (Some Sample.filePath) false
              (Sample.stale
                 (Sample.observing [Sample.page; Sample.items]))).2
           [Sample.itemsRecord]).
  - vm_compute. reflexivity.
  - apply list_elem_of_here.
Defined.

Lemma hostOfRoute_rootless (route : jsstring) :
  route = [] \/ (exists rest, route = 47%N :: rest) -> hostOfRoute route = [].
Proof.
  intros [-> | [rest ->]]; [done|]. unfold hostOfRoute.
  change (js "https://") with (104%N :: js "ttps://").
  rewrite replace_at_solidus by done.
  change (js "http://") with (104%N :: js "ttp://").
  rewrite replace_at_solidus by done.
  simpl. done.
Qed.

Lemma xgrRequests_empty_host (result : HAR) :
  xgrRequests [] result = Returned [].
Proof.
  unfold xgrRequests.
  replace (List.filter (keepEntry []) (entries result)) with (@nil Entry); [done|].
  induction (entries result) as [|e l IH]; [done|]. simpl.
  unfold keepEntry at 1. rewrite includes_unfold. simpl. done.
Qed.

(** X2: for an empty route or a route that starts with a solidus the derived
    host is empty, every URL contains it, and [recordHar] can only return
    the empty mock set. *)
Theorem rootless_route_records_nothing (retries : nat)
    (route filePath : jsstring) (logRecording : bool) (w w' : World)
    (requests : list RecordRequest) :
  route = [] \/ (exists rest, route = 47%N :: rest) ->
  recordHar retries route (Some filePath) logRecording w
    = (Returned requests, w') ->
  requests = [].
Proof.
  intros Hroute. rewrite recordHar_eq. intros Hrun.
  destruct (captureSession _ _ _ w) as [[[]| |] w1]; [|done..].
  apply processRecording_Returned in Hrun as [-> | (w2 & Hread)]; [done|].
  rewrite (hostOfRoute_rootless route Hroute) in Hread.
  apply readHarFile_Returned in Hread as (_ & result & _ & Hx).
  rewrite xgrRequests_empty_host in Hx. by injection Hx.
Qed.

Lemma rootless_route_records_nothing_witness :
  recordHar 3 (js "/login") (Some Sample.filePath) false
    (Sample.stale (Sample.observing [Sample.items; Sample.order]))
  = (Returned [],
     (recordHar 3 (js "/login") (Some Sample.filePath) false
        (Sample.stale (Sample.observing [Sample.items; Sample.order]))).2) /\
  @nil RecordRequest = [].
Proof.
  split; [vm_compute; reflexivity|].
  apply (rootless_route_records_nothing 3 (js "/login") Sample.filePath false
           (Sample.stale (Sample.observing [Sample.items; Sample.order]))
           (recordHar 3 (js "/login") (Some Sample.filePath) false
              (Sample.stale
                 (Sample.observing [Sample.items; Sample.order]))).2).
  - right. exists (js "login"). reflexivity.
  - vm_compute. reflexivity.
Defined.

(** X7: when [writeFile] rejects, [recordHar] does not: it logs the error,
    deletes the transient artifact, leaves the mock-set file as it was, and
    still returns the records it normalized. *)
Theorem persist_failure_is_swallowed (retries : nat)
    (route filePath : jsstring) (logRecording : bool) (w w1 w2 w3 : World)
    (requests : list RecordRequest) (e : Error) :
  captureSession route (harPathOf filePath) logRecording w
    = (Returned tt, w1) ->
  waitForFileExists retries filePath
    (print (Log (js "Processing recording...")) w1) = (Returned tt, w2) ->
  readHarFile (harPathOf filePath) (hostOfRoute route) w2
    = (Returned requests, w2) ->
  writeFile filePath requests w2 = (Thrown e, w3) ->
  exists w',
    recordHar retries route (Some filePath) logRecording w
      = (Returned requests, w') /\
    last (console w') = Some (LogError e) /\
    fs w' !! harPathOf filePath = None /\
    (harPathOf filePath <> filePath -> fs w' !! filePath = fs w2 !! filePath).
Proof.
  intros Hsession Hwait Hread Hwrite.
  rewrite recordHar_eq, Hsession, processRecording_eq, Hwait, Hread.
  unfold writeFile in Hwrite.
  destruct (decide (filePath ∈ readOnly w2)); [|done].
  injection Hwrite as <- <-. eexists. split; [reflexivity|]. simpl.
  split; [apply last_snoc|]. split; [apply lookup_delete_eq|].
  intros Hne. by apply lookup_delete_ne.
Qed.

Lemma persist_failure_is_swallowed_witness :
  exists w',
    recordHar 3 Sample.route (Some Sample.filePath) false
      (Scenario.locked (Sample.observing [Sample.page; Sample.items]))
      = (Returned [Sample.itemsRecord], w') /\
    last (console w') = Some (LogError PersistFailure) /\
    fs w' !! harPathOf Sample.filePath = None /\
    (harPathOf Sample.filePath <> Sample.filePath ->
     fs w' !! Sample.filePath
     = fs (print (Log (js "Processing recording..."))
             (captureSession Sample.route (harPathOf Sample.filePath) false
                (Scenario.locked
                   (Sample.observing [Sample.page; Sample.items]))).2)
         !! Sample.filePath).
Proof.
  apply (persist_failure_is_swallowed 3 Sample.route Sample.filePath false
           (Scenario.locked (Sample.observing [Sample.page; Sample.items]))
           (captureSession Sample.route (harPathOf Sample.filePath) false
              (Scenario.locked
                 (Sample.observing [Sample.page; Sample.items]))).2
           (print (Log (js "Processing recording..."))
              (captureSession Sample.route (harPathOf Sample.filePath) false
                 (Scenario.locked
                    (Sample.observing [Sample.page; Sample.items]))).2)
           (print (Log (js "Processing recording..."))
              (captureSession Sample.route (harPathOf Sample.filePath) false
                 (Scenario.locked
                    (Sample.observing [Sample.page; Sample.items]))).2)
           [Sample.itemsRecord] PersistFailure).
  - vm_compute. reflexivity.
  - vm_compute. reflexivity.
  - vm_compute. reflexivity.
  - vm_compute. reflexivity.
Defined.

(** X8: when the wait succeeds but no file is at the transient path, the
    read error is caught: it is logged, [recordHar] returns the empty mock
    set and the files are as they were. *)
Theorem missing_trace_gives_empty_set (retries : nat)
    (route filePath : jsstring) (logRecording : bool) (w w1 w2 : World) :
  captureSession route (harPathOf filePath) logRecording w
    = (Returned tt, w1) ->
  waitForFileExists retries filePath
    (print (Log (js "Processing recording...")) w1) = (Returned tt, w2) ->
  fs w2 !! harPathOf filePath = None ->
  exists w',
    recordHar retries route (Some filePath) logRecording w
      = (Returned [], w') /\
    last (console w') = Some (LogError (NoSuchFile (harPathOf filePath))) /\
    fs w' = fs w2.
Proof.
  intros Hsession Hwait Hfile.
  rewrite recordHar_eq, Hsession, processRecording_eq, Hwait.
  unfold readHarFile. rewrite Hfile. eexists. split; [reflexivity|]. simpl.
  split; [apply last_snoc|]. by apply delete_id.
Qed.

Lemma missing_trace_gives_empty_set_witness :
  exists w',
    recordHar 3 Sample.route (Some Sample.filePath) false
      (Sample.stale (Scenario.lost [Sample.items]))
      = (Returned [], w') /\
    last (console w')
      = Some (LogError (NoSuchFile (harPathOf Sample.filePath))) /\
    fs w'
    = fs (print (Log (js "Processing recording..."))
            (captureSession Sample.route (harPathOf Sample.filePath) false
               (Sample.stale (Scenario.lost [Sample.items]))).2).
Proof.
  apply (missing_trace_gives_empty_set 3 Sample.route Sample.filePath false
           (Sample.stale (Scenario.lost [Sample.items]))
           (captureSession Sample.route (harPathOf Sample.filePath) false
              (Sample.stale (Scenario.lost [Sample.items]))).2
           (print (Log (js "Processing recording..."))
              (captureSession Sample.route (harPathOf Sample.filePath) false
                 (Sample.stale (Scenario.lost [Sample.items]))).2)).
  - vm_compute. reflexivity.
  - vm_compute. reflexivity.
  - vm_compute. reflexivity.
Defined.

Lemma hostOfRoute_host_witness :
  hostOfRoute (js "http://" ++ js "localhost:3000" ++ 47%N :: js "app/")
  = js "localhost:3000".
Proof.
  apply (hostOfRoute_host (js "http://") (js "localhost:3000") (js "app/")).
  - right. reflexivity.
  - apply not_elem_of_js. vm_compute. reflexivity.
  - vm_compute. reflexivity.
  - vm_compute. reflexivity.
Defined.

Lemma readHarFile_resolves_iff_witness :
  (exists requests,
      readHarFile Sample.harPath Sample.host
        (Sample.withTrace [Scenario.login; Sample.items; Sample.order])
      = (Returned requests,
         Sample.withTrace [Scenario.login; Sample.items; Sample.order])) <->
  (forall e,
      e ∈ [Scenario.login; Sample.items; Sample.order] ->
      keepEntry Sample.host e = true ->
      is_Some (Json.parse
                 (JsString.orElse (postDataText (request e)) (js "{}"))) /\
      is_Some (Json.parse (responseString (response e)))).
Proof.
  apply (readHarFile_resolves_iff Sample.harPath Sample.host
           (Sample.withTrace [Scenario.login; Sample.items; Sample.order])
           {| entries := [Scenario.login; Sample.items; Sample.order] |}).
  vm_compute. reflexivity.
Defined.

Lemma excluded_entry_is_harmless_witness :
  xgrRequests Sample.host
    {| entries := [Sample.items] ++ Scenario.login :: [Sample.order] |}
  = xgrRequests Sample.host {| entries := [Sample.items] ++ [Sample.order] |}.
Proof.
  apply (excluded_entry_is_harmless Sample.host [Sample.items] [Sample.order]
           Scenario.login).
  vm_compute. reflexivity.
Defined.
